(** * obsidian-pdf2md: the conversion pipeline of [main.ts]

    A shallow embedding of [PDF2MDWithGemini.convertFile] and of the
    string operations it applies to the generated text and to the source
    path, with the properties of the design document checked against it.

    Conventions.
    - A JavaScript string is the list of its UTF-16 code units, each an
      [N]; [lit] turns a literal of the source into that list.
    - The regular expressions of the source are values of [regex], run by
      a backtracking matcher that follows the ECMAScript semantics for the
      constructs the source uses (characters, sequence, greedy [?], the
      assertions [^] and [$], the [i] flag).
    - The host (vault, notices, console) and the network are explicit: the
      pipeline is a state-and-exception computation over a [world] that
      records every effect in order. What the program does not decide (the
      answers of the remote service, [JSON.parse], [encodeURIComponent],
      the messages of engine errors) is a [host] record. *)

From Stdlib Require Import NArith Ascii String List Lia Bool.
From stdpp Require Import base tactics option list gmap.

#[local] Set Warnings "-register-all".

Local Open Scope N_scope.
Local Open Scope list_scope.

(** ** JavaScript strings *)

Module JsString.

(** The code units of a literal of the source (all literals of
    [main.ts] that matter here are ASCII). *)
Definition lit (s : string) : list N :=
  map N_of_ascii (list_ascii_of_string s).

Definition CR : N := 13.
Definition LF : N := 10.

(** [String.prototype.startsWith]. *)
Fixpoint starts_with (p s : list N) : bool :=
  match p, s with
  | [], _ => true
  | _ :: _, [] => false
  | a :: p', b :: s' => (a =? b) && starts_with p' s'
  end.

(** [String.prototype.endsWith]. *)
Definition ends_with (p s : list N) : bool :=
  starts_with (rev p) (rev s).

(** [drop_prefix p s] is what follows [p] in [s], when [s] starts with
    [p]. *)
Fixpoint drop_prefix (p s : list N) : option (list N) :=
  match p, s with
  | [], _ => Some s
  | _ :: _, [] => None
  | a :: p', b :: s' => if a =? b then drop_prefix p' s' else None
  end.

(** ECMAScript [WhiteSpace] and [LineTerminator] code points, the ones
    [String.prototype.trim] removes. *)
Definition is_white_space (c : N) : bool :=
  (c =? 9) || (c =? 10) || (c =? 11) || (c =? 12) || (c =? 13)
  || (c =? 32) || (c =? 160) || (c =? 5760)
  || ((8192 <=? c) && (c <=? 8202))
  || (c =? 8232) || (c =? 8233) || (c =? 8239) || (c =? 8287)
  || (c =? 12288) || (c =? 65279).

Fixpoint trim_start (s : list N) : list N :=
  match s with
  | [] => []
  | c :: s' => if is_white_space c then trim_start s' else s
  end.

Definition trim_end (s : list N) : list N :=
  rev (trim_start (rev s)).

(** [String.prototype.trim]. *)
Definition trim (s : list N) : list N := trim_end (trim_start s).

(** Decimal digits of a number, as [Number.prototype.toString] prints a
    non-negative integer. *)
Fixpoint digits (u : Decimal.uint) : list N :=
  match u with
  | Decimal.Nil => []
  | Decimal.D0 u' => 48 :: digits u'
  | Decimal.D1 u' => 49 :: digits u'
  | Decimal.D2 u' => 50 :: digits u'
  | Decimal.D3 u' => 51 :: digits u'
  | Decimal.D4 u' => 52 :: digits u'
  | Decimal.D5 u' => 53 :: digits u'
  | Decimal.D6 u' => 54 :: digits u'
  | Decimal.D7 u' => 55 :: digits u'
  | Decimal.D8 u' => 56 :: digits u'
  | Decimal.D9 u' => 57 :: digits u'
  end.

Definition to_decimal (n : N) : list N := digits (N.to_uint n).

End JsString.

Import JsString.

(** ** Regular expressions *)

Module Regex.

(** The constructs that occur in the three expressions of [main.ts]. *)
Inductive regex : Type :=
| Chr (c : N)              (* a pattern character *)
| Cat (r1 r2 : regex)      (* r1 r2 *)
| Opt (r : regex)          (* r? and (?:r)?, greedy *)
| Bol                      (* ^ without the m flag *)
| Eol                      (* $ without the m flag *)
| Eps.                     (* the empty pattern *)

(** A sequence of pattern characters. *)
Fixpoint chars (l : list N) : regex :=
  match l with
  | [] => Eps
  | c :: l' => Cat (Chr c) (chars l')
  end.

(** A position in the subject: the code units before it, nearest
    first, and the code units after it. *)
Definition cursor : Type := list N * list N.

(** ECMAScript [Canonicalize] without the [u] flag maps a code unit to
    its upper case, except that a code unit of 128 or more is never
    mapped below 128. The patterns of [main.ts] contain ASCII characters
    only, and a code unit of 128 or more never canonicalizes to an ASCII
    one, so the upper-casing of the non-ASCII range is left out. *)
Definition canonicalize (ignore_case : bool) (c : N) : N :=
  if ignore_case && (97 <=? c) && (c <=? 122) then c - 32 else c.

Definition char_eq (ignore_case : bool) (a b : N) : bool :=
  canonicalize ignore_case a =? canonicalize ignore_case b.

(** The backtracking matcher, in continuation-passing style:
    [rmatch ic r p k] matches [r] at [p] and hands the position reached
    to [k]; when [k] fails the next alternative of [r] is tried. *)
Fixpoint rmatch (ic : bool) (r : regex) (p : cursor)
         (k : cursor -> option cursor) : option cursor :=
  match r with
  | Chr c =>
      match p with
      | (bef, x :: aft) => if char_eq ic c x then k (x :: bef, aft) else None
      | (_, []) => None
      end
  | Cat r1 r2 => rmatch ic r1 p (fun q => rmatch ic r2 q k)
  | Opt r1 =>
      match rmatch ic r1 p k with
      | Some e => Some e
      | None => k p
      end
  | Bol => match p with ([], _) => k p | _ => None end
  | Eol => match p with (_, []) => k p | _ => None end
  | Eps => k p
  end.

(** [RegExp.prototype.exec] for an expression without the [g] and [y]
    flags: the first start position, from the left, at which the
    expression matches. The result is what precedes the match (nearest
    first) and what follows it. *)
Fixpoint exec_from (ic : bool) (r : regex) (bef aft : list N)
  : option (list N * list N) :=
  match rmatch ic r (bef, aft) Some with
  | Some e => Some (bef, snd e)
  | None =>
      match aft with
      | [] => None
      | x :: aft' => exec_from ic r (x :: bef) aft'
      end
  end.

(** [String.prototype.replace] with such an expression and a
    replacement string without [$] patterns: the first match is replaced,
    a subject without a match is returned as it is. *)
Definition replace (ic : bool) (r : regex) (repl s : list N) : list N :=
  match exec_from ic r [] s with
  | Some (bef, aft) => rev bef ++ repl ++ aft
  | None => s
  end.

End Regex.

Import Regex.

(** ** The string operations of [convertFile] *)

(** [/^```(?:markdown)?\r?\n?/] (main.ts:172). *)
Definition fence_open_re : regex :=
  Cat Bol (Cat (chars (lit "```"))
        (Cat (Opt (chars (lit "markdown")))
        (Cat (Opt (Chr CR)) (Opt (Chr LF))))).

(** [/\r?\n?```$/] (main.ts:172). *)
Definition fence_close_re : regex :=
  Cat (Opt (Chr CR)) (Cat (Opt (Chr LF)) (Cat (chars (lit "```")) Eol)).

(** [/\.pdf$/i] (main.ts:174). *)
Definition pdf_ext_re : regex :=
  Cat (chars (lit ".pdf")) Eol.

(** The post-processor, main.ts:172:
    [markdown.replace(/^```(?:markdown)?\r?\n?/, '').replace(/\r?\n?```$/, '')]. *)
Definition strip (markdown : list N) : list N :=
  replace false fence_close_re [] (replace false fence_open_re [] markdown).

(** The path mapping, main.ts:174: [file.path.replace(/\.pdf$/i, '.md')]. *)
Definition outputPath (path : list N) : list N :=
  replace true pdf_ext_re (lit ".md") path.

(** [wrap] of the design document: the text between the two fences. *)
Definition wrap (text : list N) : list N :=
  lit "```markdown" ++ [LF] ++ text ++ [LF] ++ lit "```".


(** ** JSON values and the JavaScript operations applied to them *)

Module Js.

(** A JSON number, by what [convertFile] can observe of it: whether it is
    truthy (neither zero nor NaN) and how [ToString] prints it. *)
Record number : Type := MkNumber { nonzero : bool; shown : list N }.

Definition number_of_N (n : N) : number :=
  MkNumber (negb (n =? 0)) (to_decimal n).

(** A value produced by [JSON.parse]. The members of an object are listed
    with the member that a property read finds first. *)
Inductive json : Type :=
| JNull
| JBool (b : bool)
| JNum (n : number)
| JStr (s : list N)
| JArr (items : list json)
| JObj (members : list (list N * json)).

(** A JavaScript value that can arise from reading properties of parsed
    JSON: [None] is [undefined]. *)
Definition value : Type := option json.

(** The errors [convertFile] can meet. Only [Error] is raised by the code
    itself; [Rejected] is a promise of the host (vault, fetch) rejected
    with an error of that message; the others are thrown by the engine. *)
Inductive js_error : Type :=
| Error (message : list N)
| TypeError_read (prop : list N) (of_null : bool)
| TypeError_not_a_function (prop : list N)
| TypeError_to_primitive
| SyntaxError_JSON
| URIError_malformed
| Rejected (message : list N).

Fixpoint str_eqb (a b : list N) : bool :=
  match a, b with
  | [], [] => true
  | x :: a', y :: b' => (x =? y) && str_eqb a' b'
  | _, _ => false
  end.

Fixpoint lookup_member (k : list N) (ms : list (list N * json)) : value :=
  match ms with
  | [] => None
  | (k', v) :: ms' => if str_eqb k k' then Some v else lookup_member k ms'
  end.

(** [v.k] for a property name [k] that no prototype defines and that is
    not an array index ([file], [uri], [candidates], [content], [parts],
    [text]). *)
Definition get (v : value) (k : list N) : js_error + value :=
  match v with
  | None => inl (TypeError_read k false)
  | Some JNull => inl (TypeError_read k true)
  | Some (JObj ms) => inr (lookup_member k ms)
  | Some _ => inr None
  end.

(** [v?.length]. *)
Definition opt_length (v : value) : value :=
  match v with
  | None | Some JNull => None
  | Some (JArr items) => Some (JNum (number_of_N (N.of_nat (length items))))
  | Some (JStr s) => Some (JNum (number_of_N (N.of_nat (length s))))
  | Some (JObj ms) => lookup_member (lit "length") ms
  | Some _ => None
  end.

(** [ToBoolean]. *)
Definition truthy (v : value) : bool :=
  match v with
  | None | Some JNull => false
  | Some (JBool b) => b
  | Some (JNum n) => nonzero n
  | Some (JStr s) => match s with [] => false | _ => true end
  | Some (JArr _) | Some (JObj _) => true
  end.

(** [v[0]] for a [v] that is neither [undefined] nor [null]. *)
Definition index0 (v : value) : js_error + value :=
  match v with
  | None => inl (TypeError_read (lit "0") false)
  | Some JNull => inl (TypeError_read (lit "0") true)
  | Some (JArr items) => inr (head items)
  | Some (JStr s) => inr (option_map (fun c => JStr [c]) (head s))
  | Some (JObj ms) => inr (lookup_member (lit "0") ms)
  | Some _ => inr None
  end.

(** [ToString] of a parsed value; [None] when the conversion throws (an
    object whose own [toString] member hides the inherited method). *)
Fixpoint to_string (j : json) : option (list N) :=
  match j with
  | JNull => Some (lit "null")
  | JBool b => Some (if b then lit "true" else lit "false")
  | JNum n => Some (shown n)
  | JStr s => Some s
  | JArr items =>
      (fix join_comma (l : list json) : option (list N) :=
         match l with
         | [] => Some []
         | x :: l' =>
             match (match x with JNull => Some [] | _ => to_string x end),
                   join_comma l' with
             | Some s, Some r =>
                 Some (s ++ match l' with [] => r | _ => lit "," ++ r end)
             | _, _ => None
             end
         end) items
  | JObj ms =>
      match lookup_member (lit "toString") ms with
      | Some _ => None
      | None => Some (lit "[object Object]")
      end
  end.

(** [Array.prototype.join('')] on values: [undefined] and [null] print as
    the empty string. *)
Fixpoint join_empty (vs : list value) : js_error + list N :=
  match vs with
  | [] => inr []
  | v :: vs' =>
      match (match v with
             | None | Some JNull => Some []
             | Some j => to_string j
             end), join_empty vs' with
      | Some s, inr r => inr (s ++ r)
      | None, _ => inl TypeError_to_primitive
      | _, inl e => inl e
      end
  end.

(** [parts.map((part) => part.text)]. *)
Fixpoint map_text (items : list json) : js_error + list value :=
  match items with
  | [] => inr []
  | part :: items' =>
      match get (Some part) (lit "text") with
      | inl e => inl e
      | inr t =>
          match map_text items' with
          | inl e => inl e
          | inr ts => inr (t :: ts)
          end
      end
  end.

Definition parts_map_text (parts : value) : js_error + list value :=
  match parts with
  | None => inl (TypeError_read (lit "map") false)
  | Some JNull => inl (TypeError_read (lit "map") true)
  | Some (JArr items) => map_text items
  | Some _ => inl (TypeError_not_a_function (lit "map"))
  end.

End Js.

Import Js.

(** ** The host and the network *)

(** [PDF2MDSettings] (main.ts:6); [convertFile] never reads the
    temperature. *)
Record PDF2MDSettings : Type := {
  apiKey : list N;
  modelName : list N;
  systemPrompt : list N;
  userPrompt : list N;
  temperature : number
}.

(** The fields of an Obsidian [TFile] that [convertFile] reads. *)
Record TFile : Type := { name : list N; path : list N }.

(** An entry of the vault, what [getAbstractFileByPath] finds at a path:
    a file with its content (bytes of a binary file, code units of a text
    file) or a folder. *)
Inductive node : Type :=
| NFile (data : list N)
| NFolder.

Inductive req_body : Type :=
| BodyJson (j : json)        (* JSON.stringify of the value *)
| BodyBytes (b : list N).    (* the buffer of the file *)

Record request : Type := {
  url : list N;
  method : list N;
  headers : list (list N * list N);
  body : req_body
}.

(** A response once its body has been read with [text()]. *)
Record response : Type := {
  status : N;
  resp_headers : list (list N * list N);
  text : list N
}.

(** [Response.ok]: the status is in the range 200-299. *)
Definition ok (r : response) : bool :=
  (200 <=? status r) && (status r <=? 299).

Definition lower (c : N) : N :=
  if (65 <=? c) && (c <=? 90) then c + 32 else c.

(** [Headers.get]: header names compare without regard to ASCII case;
    a header that is absent gives [null]. *)
Fixpoint headers_get (hs : list (list N * list N)) (k : list N)
  : option (list N) :=
  match hs with
  | [] => None
  | (k', v) :: hs' =>
      if str_eqb (map lower k) (map lower k') then Some v
      else headers_get hs' k
  end.

(** [fetch] followed by [text()] either gives a response or rejects. *)
Inductive net_result : Type :=
| NetError (message : list N)
| Response (r : response).

(** The notices of [convertFile], one constructor for each
    [new Notice(...)] of the source, in source order. *)
Inductive notice : Type :=
| NConverting (file_name : list N)
| NSetApiKey
| NUploadStartFailed (st : N) (body_text : list N)
| NUploadSessionStarted
| NNoUploadUrl
| NUploading
| NUploadContentFailed (st : N) (body_text : list N)
| NFileUploaded
| NNoFileUri
| NWaiting
| NGenerateFailed (st : N) (body_text : list N)
| NResponseReceived
| NConverted (file_name new_path : list N)
| NErrorConverting (e : js_error).

(** The notices that report a failure: the ones followed by [return], and
    the one of the [catch] block. *)
Definition is_failure (n : notice) : bool :=
  match n with
  | NSetApiKey | NUploadStartFailed _ _ | NNoUploadUrl
  | NUploadContentFailed _ _ | NNoFileUri | NGenerateFailed _ _
  | NErrorConverting _ => true
  | _ => false
  end.

(** An argument of [console.log] or [console.error]. *)
Inductive log_arg : Type :=
| LStr (s : list N)
| LNum (n : N)
| LNullable (s : option (list N))
| LValue (v : value)
| LError (e : js_error).

(** Every effect of [convertFile], in the order it happens. *)
Inductive event : Type :=
| EvNotice (n : notice)
| EvReadBinary (p : list N)
| EvFetch (rq : request)
| EvConsole (args : list log_arg)
| EvGetAbstractFile (p : list N)
| EvModify (p : list N) (data : list N)
| EvCreate (p : list N) (data : list N).

Record world : Type := {
  trace : list event;
  vault : gmap (list N) node
}.

(** What the program does not decide: the remote service (which may
    answer by what it has seen so far), the built-in functions, and the
    messages of the errors the engine and the vault raise. *)
Record host : Type := {
  remote : list event -> request -> net_result;
  JSON_parse : list N -> option json;
  encodeURIComponent : list N -> option (list N);
  engine_message : js_error -> list N;
  read_failure : list N -> list N;
  create_failure : list N -> list N
}.

(** [error.message]. *)
Definition error_message (h : host) (e : js_error) : list N :=
  match e with
  | Error m | Rejected m => m
  | _ => engine_message h e
  end.

(** The text of a notice (the template strings of the source). *)
Definition render (h : host) (n : notice) : list N :=
  match n with
  | NConverting f => lit "Converting " ++ f ++ lit " to Markdown..."
  | NSetApiKey => lit "Please set your API key in plugin settings."
  | NUploadStartFailed st b =>
      lit "Upload start failed: " ++ to_decimal st ++ lit " - " ++ b
  | NUploadSessionStarted => lit "Upload session started"
  | NNoUploadUrl => lit "No upload URL returned"
  | NUploading => lit "Uploading file..."
  | NUploadContentFailed st b =>
      lit "Upload content failed: " ++ to_decimal st ++ lit " - " ++ b
  | NFileUploaded => lit "File uploaded successfully"
  | NNoFileUri => lit "No file URI returned"
  | NWaiting => lit "Waiting for API response..."
  | NGenerateFailed st b =>
      lit "Generate content failed: " ++ to_decimal st ++ lit " - " ++ b
  | NResponseReceived => lit "API response received, generating markdown..."
  | NConverted f p => lit "Converted " ++ f ++ lit " to " ++ p
  | NErrorConverting e => lit "Error converting file: " ++ error_message h e
  end.

(** ** The computation of an [async] function body

    A computation changes the world and completes normally with a value,
    by a [return] statement, or by throwing. Suspension at [await] is not
    modelled: one invocation is followed from start to end. *)

Inductive completion (A : Type) : Type :=
| Normal (a : A)
| Return
| Throw (e : js_error).

Arguments Normal {A} a.
Arguments Return {A}.
Arguments Throw {A} e.

Definition M (A : Type) : Type := world -> completion A * world.

#[global] Instance M_ret : MRet M := fun A a w => (Normal a, w).

#[global] Instance M_bind : MBind M := fun A B f m w =>
  match m w with
  | (Normal a, w') => f a w'
  | (Return, w') => (Return, w')
  | (Throw e, w') => (Throw e, w')
  end.

Definition emit (ev : event) : M unit := fun w =>
  (Normal tt, {| trace := trace w ++ [ev]; vault := vault w |}).

Definition early_return {A : Type} : M A := fun w => (Return, w).

Definition throw {A : Type} (e : js_error) : M A := fun w => (Throw e, w).

Definition lift {A : Type} (r : js_error + A) : M A :=
  match r with
  | inl e => throw e
  | inr a => mret a
  end.

(** [try { body } catch (error) { handler }]. *)
Definition try_catch {A : Type} (body : M A) (handler : js_error -> M A)
  : M A := fun w =>
  match body w with
  | (Throw e, w') => handler e w'
  | r => r
  end.

Definition new_Notice (n : notice) : M unit := emit (EvNotice n).

Definition console (args : list log_arg) : M unit := emit (EvConsole args).

(** [await this.app.vault.readBinary(file)]: the bytes of the file at
    [file.path]; the promise rejects when no file is there. *)
Definition readBinary (h : host) (file : TFile) : M (list N) := fun w =>
  let w' := {| trace := trace w ++ [EvReadBinary (path file)];
               vault := vault w |} in
  match vault w !! path file with
  | Some (NFile data) => (Normal data, w')
  | _ => (Throw (Rejected (read_failure h (path file))), w')
  end.

(** [await fetch(...)] and [await response.text()]: the request is
    issued, and the remote service answers or the promise rejects. *)
Definition fetch (h : host) (rq : request) : M response := fun w =>
  let w' := {| trace := trace w ++ [EvFetch rq]; vault := vault w |} in
  match remote h (trace w) rq with
  | NetError m => (Throw (Rejected m), w')
  | Response r => (Normal r, w')
  end.

(** [this.app.vault.getAbstractFileByPath(p)]. *)
Definition getAbstractFileByPath (p : list N) : M (option node) := fun w =>
  (Normal (vault w !! p),
   {| trace := trace w ++ [EvGetAbstractFile p]; vault := vault w |}).

(** [await this.app.vault.modify(existing, data)] for the file at [p]. *)
Definition modify (p data : list N) : M unit := fun w =>
  (Normal tt,
   {| trace := trace w ++ [EvModify p data];
      vault := <[p := NFile data]> (vault w) |}).

(** [await this.app.vault.create(p, data)]: Obsidian creates the file
    when the path is free and rejects when an entry is already there. *)
Definition create (h : host) (p data : list N) : M unit := fun w =>
  let w' := {| trace := trace w ++ [EvCreate p data]; vault := vault w |} in
  match vault w !! p with
  | None =>
      (Normal tt,
       {| trace := trace w'; vault := <[p := NFile data]> (vault w) |})
  | Some _ => (Throw (Rejected (create_failure h p)), w')
  end.

(** ** [convertFile] (main.ts:59-186) *)

Definition mimeType : list N := lit "application/pdf".

(** The session-start request, main.ts:77-90. *)
Definition start_request (key displayName : list N) (fileSize : N)
  : request :=
  {| url := lit "https://generativelanguage.googleapis.com/upload/v1beta/files?key="
            ++ key;
     method := lit "POST";
     headers :=
       [ (lit "X-Goog-Upload-Protocol", lit "resumable");
         (lit "X-Goog-Upload-Command", lit "start");
         (lit "X-Goog-Upload-Header-Content-Length", to_decimal fileSize);
         (lit "X-Goog-Upload-Header-Content-Type", mimeType);
         (lit "Content-Type", lit "application/json") ];
     body := BodyJson
       (JObj [ (lit "file",
                JObj [ (lit "display_name", JStr displayName) ]) ]) |}.

(** The upload request, main.ts:109-118. *)
Definition upload_request (uploadUrl u8array : list N) (fileSize : N)
  : request :=
  {| url := uploadUrl;
     method := lit "POST";
     headers :=
       [ (lit "Content-Type", mimeType);
         (lit "Content-Length", to_decimal fileSize);
         (lit "X-Goog-Upload-Offset", lit "0");
         (lit "X-Goog-Upload-Command", lit "upload, finalize") ];
     body := BodyBytes u8array |}.

(** The generation request, main.ts:138-155; the temperature is not
    sent. *)
Definition generate_request (settings : PDF2MDSettings)
           (encodedModel key : list N) (fileUri : json) : request :=
  {| url := lit "https://generativelanguage.googleapis.com/v1beta/models/"
            ++ encodedModel ++ lit ":generateContent?key=" ++ key;
     method := lit "POST";
     headers := [ (lit "Content-Type", lit "application/json") ];
     body := BodyJson
       (JObj [ (lit "contents",
          JArr [ JObj [ (lit "parts",
            JArr [ JObj [ (lit "text", JStr (systemPrompt settings)) ];
                   JObj [ (lit "text", JStr (userPrompt settings)) ];
                   JObj [ (lit "file_data",
                     JObj [ (lit "file_uri", fileUri);
                            (lit "mime_type", JStr mimeType) ]) ] ]) ] ]) ])
  |}.

(** [a || b] on values that are a string or [null]. *)
Definition or_string (a b : option (list N)) : option (list N) :=
  match a with
  | Some (c :: s) => Some (c :: s)
  | _ => b
  end.

Definition parse (h : host) (t : list N) : M json :=
  match JSON_parse h t with
  | Some j => mret j
  | None => throw SyntaxError_JSON
  end.

Definition encode (h : host) (s : list N) : M (list N) :=
  match encodeURIComponent h s with
  | Some e => mret e
  | None => throw URIError_malformed
  end.

(** The [try] block up to the post-processing, main.ts:62-172: from the
    read of the source file to the stripped markdown. *)
Definition request_markdown (h : host) (settings : PDF2MDSettings)
           (file : TFile) : M (list N) :=
  u8array ← readBinary h file;
  let fileSize := N.of_nat (length u8array) in
  let displayName := name file in
  let key := trim (apiKey settings) in
  match key with
  | [] => new_Notice NSetApiKey;; early_return
  | _ => mret tt
  end;;
  startResponse ← fetch h (start_request key displayName fileSize);
  let startText := text startResponse in
  console [LStr (lit "startResponse status:"); LNum (status startResponse);
           LStr (lit "body:"); LStr startText];;
  (if negb (ok startResponse)
   then new_Notice (NUploadStartFailed (status startResponse) startText);;
        early_return
   else mret tt);;
  new_Notice NUploadSessionStarted;;
  let uploadUrl :=
    or_string (headers_get (resp_headers startResponse)
                           (lit "x-goog-upload-url"))
              (headers_get (resp_headers startResponse)
                           (lit "X-Goog-Upload-URL")) in
  console [LStr (lit "uploadUrl"); LNullable uploadUrl];;
  uploadUrl ← match uploadUrl with
              | Some (c :: u) => mret (c :: u)
              | _ => new_Notice NNoUploadUrl;; early_return
              end;
  new_Notice NUploading;;
  uploadResponse ← fetch h (upload_request uploadUrl u8array fileSize);
  let uploadText := text uploadResponse in
  console [LStr (lit "uploadResponse status:"); LNum (status uploadResponse);
           LStr (lit "body:"); LStr uploadText];;
  (if negb (ok uploadResponse)
   then new_Notice (NUploadContentFailed (status uploadResponse) uploadText);;
        early_return
   else mret tt);;
  new_Notice NFileUploaded;;
  fileInfo ← parse h uploadText;
  fileInfo_file ← lift (get (Some fileInfo) (lit "file"));
  fileUri ← lift (get fileInfo_file (lit "uri"));
  console [LStr (lit "fileUri"); LValue fileUri];;
  fileUri ← match fileUri with
            | Some j =>
                if truthy (Some j) then mret j
                else new_Notice NNoFileUri;; early_return
            | None => new_Notice NNoFileUri;; early_return
            end;
  new_Notice NWaiting;;
  encodedModel ← encode h (modelName settings);
  generateResponse ←
    fetch h (generate_request settings encodedModel key fileUri);
  let generateText := text generateResponse in
  console [LStr (lit "generateResponse status:");
           LNum (status generateResponse);
           LStr (lit "body:"); LStr generateText];;
  (if negb (ok generateResponse)
   then new_Notice (NGenerateFailed (status generateResponse) generateText);;
        early_return
   else mret tt);;
  new_Notice NResponseReceived;;
  genData ← parse h generateText;
  candidates ← lift (get (Some genData) (lit "candidates"));
  (if negb (truthy (opt_length candidates))
   then throw (Error (lit "No candidates returned"))
   else mret tt);;
  candidate ← lift (index0 candidates);
  content ← lift (get candidate (lit "content"));
  parts ← lift (get content (lit "parts"));
  contentParts ← lift (parts_map_text parts);
  markdown ← lift (join_empty contentParts);
  mret (strip markdown).

(** The rest of the [try] block, main.ts:174-181: the markdown is written
    next to the source file. *)
Definition write_markdown (h : host) (file : TFile) (markdown : list N)
  : M unit :=
  let newPath := outputPath (path file) in
  existing ← getAbstractFileByPath newPath;
  match existing with
  | Some (NFile _) => modify newPath markdown
  | _ => create h newPath markdown
  end;;
  new_Notice (NConverted (name file) newPath).

(** [async convertFile(file: TFile)], main.ts:59-186. *)
Definition convertFile_body (h : host) (settings : PDF2MDSettings)
           (file : TFile) : M unit :=
  new_Notice (NConverting (name file));;
  try_catch
    (markdown ← request_markdown h settings file;
     write_markdown h file markdown)
    (fun error =>
       console [LStr (lit "Error converting file:"); LError error];;
       new_Notice (NErrorConverting error)).

Definition convertFile (h : host) (settings : PDF2MDSettings)
           (file : TFile) (w : world) : world :=
  snd (convertFile_body h settings file w).

(** ** Observations on a trace *)

Fixpoint notices (t : list event) : list notice :=
  match t with
  | [] => []
  | EvNotice n :: t' => n :: notices t'
  | _ :: t' => notices t'
  end.

(** The network requests of a trace. *)
Fixpoint fetches (t : list event) : list request :=
  match t with
  | [] => []
  | EvFetch rq :: t' => rq :: fetches t'
  | _ :: t' => fetches t'
  end.

(** The writes to the vault of a trace. *)
Fixpoint writes (t : list event) : list event :=
  match t with
  | [] => []
  | EvModify p d :: t' => EvModify p d :: writes t'
  | EvCreate p d :: t' => EvCreate p d :: writes t'
  | _ :: t' => writes t'
  end.

Definition failures (t : list event) : list notice :=
  filter (fun n => is_failure n = true) (notices t).

Definition is_converted (n : notice) : bool :=
  match n with
  | NConverted _ _ => true
  | _ => false
  end.

(** A run has succeeded when it has shown the notice of main.ts:181. *)
Definition converted (t : list event) : bool :=
  existsb is_converted (notices t).

(** The events of one invocation of [convertFile] from the world [w]. *)
Definition run_events (h : host) (settings : PDF2MDSettings) (file : TFile)
           (w : world) : list event :=
  drop (length (trace w)) (trace (convertFile h settings file w)).

(** Whether [readBinary] finds the bytes of the file. *)
Definition readable (w : world) (file : TFile) : bool :=
  match vault w !! path file with
  | Some (NFile _) => true
  | _ => false
  end.

Definition is_folder (o : option node) : bool :=
  match o with
  | Some NFolder => true
  | _ => false
  end.

(** The world in which the [try] block of [convertFile] starts. *)
Definition started (file : TFile) (w : world) : world :=
  {| trace := trace w ++ [EvNotice (NConverting (name file))];
     vault := vault w |}.

(** The events of the [catch] block (main.ts:182-185). *)
Definition caught (e : js_error) : list event :=
  [EvConsole [LStr (lit "Error converting file:"); LError e];
   EvNotice (NErrorConverting e)].

(** The events with which every invocation begins: the opening notice and
    the read of the source file (main.ts:60-62). *)
Definition opening (file : TFile) : list event :=
  [EvNotice (NConverting (name file)); EvReadBinary (path file)].

(** [quiet m] holds when the computation [m] leaves the vault alone,
    never shows the notice of success, and shows exactly one failure
    notice when it ends by [return] and none otherwise. *)
Definition quiet_at {B : Type} (m : M B) (w : world) : Prop :=
  exists new,
    trace (snd (m w)) = trace w ++ new
    /\ vault (snd (m w)) = vault w
    /\ converted new = false
    /\ writes new = []
    /\ match fst (m w) with
       | Return => length (failures new) = 1%nat
       | _ => failures new = []
       end.

Definition quiet {B : Type} (m : M B) : Prop := forall w, quiet_at m w.

(** A string that is empty or made of white space only. *)
Definition blank (s : list N) : bool := forallb is_white_space s.

(** ** The post-processor and the path mapping, without expressions

    The functions below say directly what the two [replace] calls of
    main.ts:172 and the one of main.ts:174 compute; the lemmas of the next
    part prove that they agree with the matcher. *)

Definition fence : list N := lit "```".

Definition drop_optional (p s : list N) : list N :=
  match drop_prefix p s with
  | Some s' => s'
  | None => s
  end.

Definition open_direct (s : list N) : list N :=
  match drop_prefix fence s with
  | Some s1 =>
      drop_optional [LF] (drop_optional [CR] (drop_optional (lit "markdown") s1))
  | None => s
  end.

(** [cut P s]: what precedes the longest suffix of [s] that satisfies
    [P]. *)
Fixpoint cut (P : list N -> bool) (s : list N) : option (list N) :=
  if P s then Some []
  else match s with
       | [] => None
       | x :: s' => option_map (cons x) (cut P s')
       end.

(** The leading markers that [strip] removes: the fence, then the tag or
    not, then a carriage return or not, then a line feed or not. *)
Definition open_markers : list (list N) :=
  [ lit "```markdown" ++ [CR; LF]; lit "```markdown" ++ [CR];
    lit "```markdown" ++ [LF]; lit "```markdown";
    lit "```" ++ [CR; LF]; lit "```" ++ [CR]; lit "```" ++ [LF]; lit "```" ].

(** The trailing markers that [strip] removes. *)
Definition close_markers : list (list N) :=
  [ [CR; LF] ++ lit "```"; [CR] ++ lit "```"; [LF] ++ lit "```"; lit "```" ].

Definition close_here (s : list N) : bool :=
  existsb (str_eqb s) close_markers.

(** The extensions that [/\.pdf$/i] matches. *)
Definition is_pdf_ext (e : list N) : bool :=
  match e with
  | [a; b; c; d] =>
      (a =? 46) && ((b =? 112) || (b =? 80))
      && ((c =? 100) || (c =? 68)) && ((d =? 102) || (d =? 70))
  | _ => false
  end.

(** [strip] as the design document words it: a leading fence with an
    optional [markdown] tag is removed when a newline follows it at once
    (with that newline), and a trailing fence is removed. *)
Definition strip_spec (x : list N) : list N :=
  let x1 :=
    match drop_prefix (lit "```markdown" ++ [LF]) x with
    | Some r => r
    | None =>
        match drop_prefix (lit "```" ++ [LF]) x with
        | Some r => r
        | None => x
        end
    end in
  if ends_with fence x1 then take (length x1 - 3)%nat x1 else x1.

(** ** A host for the examples *)

Module Demo.

(** A JSON text, written with ['] for the double quote. *)
Definition json_text (s : string) : list N :=
  map (fun c => if c =? 39 then 34 else c) (lit s).

Definition parse_table : list (list N * json) :=
  [ (json_text "{}", JObj []);
    (json_text "{'file':{}}", JObj [ (lit "file", JObj []) ]);
    (json_text "{'file':{'uri':'files/abc'}}",
     JObj [ (lit "file", JObj [ (lit "uri", JStr (lit "files/abc")) ]) ]);
    (json_text "{'candidates':[]}", JObj [ (lit "candidates", JArr []) ]);
    (json_text "{'candidates':[{'content':{'parts':[{'text':'# Title'}]}}]}",
     JObj [ (lit "candidates",
       JArr [ JObj [ (lit "content",
         JObj [ (lit "parts",
           JArr [ JObj [ (lit "text",
             JStr (wrap (lit "# Title"))) ] ]) ]) ] ]) ]) ].

(** The host of the examples: [answers] gives the response to each
    request by its position among the requests made so far, and starts
    again when the list is used up; the bodies of the examples are parsed
    by table. *)
Definition demo (answers : list net_result) : host :=
  {| remote := fun t _ =>
       nth (length (fetches t) mod length answers) answers
           (NetError (lit "Failed to fetch"));
     JSON_parse := fun t => lookup_member t parse_table;
     encodeURIComponent := fun s => Some s;
     engine_message := fun e =>
       match e with
       | TypeError_read p false =>
           lit "Cannot read properties of undefined (reading '" ++ p ++ lit "')"
       | TypeError_read p true =>
           lit "Cannot read properties of null (reading '" ++ p ++ lit "')"
       | TypeError_not_a_function p => p ++ lit " is not a function"
       | TypeError_to_primitive =>
           lit "Cannot convert object to primitive value"
       | SyntaxError_JSON => lit "Unexpected token"
       | URIError_malformed => lit "URI malformed"
       | Error m | Rejected m => m
       end;
     read_failure := fun p => lit "ENOENT: no such file or directory";
     create_failure := fun p => lit "File already exists." |}.

Definition settings : PDF2MDSettings :=
  {| apiKey := lit " KEY ";
     modelName := lit "gemini-2.5";
     systemPrompt := lit "system";
     userPrompt := lit "user";
     temperature := MkNumber true (lit "0.5") |}.

Definition blank_settings : PDF2MDSettings :=
  {| apiKey := lit "   ";
     modelName := lit "gemini-2.5";
     systemPrompt := lit "system";
     userPrompt := lit "user";
     temperature := MkNumber true (lit "0.5") |}.

Definition report : TFile :=
  {| name := lit "report.PDF"; path := lit "a/b/report.PDF" |}.

Definition pdf_bytes : list N := [37; 80; 68; 70; 45; 49; 46; 52; 10; 37].

(** A vault that holds the ten bytes of the source file. *)
Definition w0 : world :=
  {| trace := []; vault := {[ lit "a/b/report.PDF" := NFile pdf_bytes ]} |}.

(** A vault without the source file. *)
Definition w_empty : world := {| trace := []; vault := ∅ |}.

(** A vault in which a folder has the name of the output file. *)
Definition w_folder : world :=
  {| trace := [];
     vault := <[ lit "a/b/report.md" := NFolder ]> (vault w0) |}.

Definition start_ok : net_result :=
  Response {| status := 200;
              resp_headers := [ (lit "x-goog-upload-url",
                                 lit "https://example/upload/123") ];
              text := [] |}.

Definition answer (st : N) (t : list N) : net_result :=
  Response {| status := st; resp_headers := []; text := t |}.

Definition upload_ok : net_result :=
  answer 200 (json_text "{'file':{'uri':'files/abc'}}").

Definition generate_ok : net_result :=
  answer 200
    (json_text "{'candidates':[{'content':{'parts':[{'text':'# Title'}]}}]}").

(** The three answers as responses, and a failure. *)
Definition start_response : response :=
  {| status := 200;
     resp_headers := [ (lit "x-goog-upload-url",
                        lit "https://example/upload/123") ];
     text := [] |}.

Definition received (st : N) (t : list N) : response :=
  {| status := st; resp_headers := []; text := t |}.

Definition upload_response : response :=
  received 200 (json_text "{'file':{'uri':'files/abc'}}").

Definition generate_response : response :=
  received 200
    (json_text "{'candidates':[{'content':{'parts':[{'text':'# Title'}]}}]}").

(** A source file whose extension is in lower case. *)
Definition paper : TFile :=
  {| name := lit "paper.pdf"; path := lit "notes/paper.pdf" |}.

End Demo.

(** ** The settings store (main.ts:14-24, 188-194) *)

(** The five lines of the default system prompt (main.ts:17-21). *)
Definition systemPrompt_line1 : list N :=
  lit "You are an AI assistant specialized in converting PDF "
  ++ lit "documents into clean, well-formatted Markdown text. Your "
  ++ lit "goal is to accurately represent the structure and content "
  ++ lit "of the provided PDF, adhering strictly to the following "
  ++ lit "guidelines:".

Definition systemPrompt_line2 : list N :=
  lit "- Format Preservation: Properly convert and represent "
  ++ lit "headings (using #, ##, ###, etc.), ordered lists (1., 2.), "
  ++ lit "unordered lists ("
  ++ lit "* or -), tables (using standard Markdown "
  ++ lit "table syntax), and blockquotes (>). Maintain the original "
  ++ lit "document structure as closely as possible.".

Definition systemPrompt_line3 : list N :=
  lit "- For images that are actually tables, output as Markdown "
  ++ lit "tables; for images that are not tables, just semantically "
  ++ lit "describe them without embedding.".

Definition systemPrompt_line4 : list N :=
  lit "- Content Exclusion: Explicitly EXCLUDE any headers, "
  ++ lit "footers, page numbers, or other peripheral metadata present "
  ++ lit "in the original PDF. Focus solely on the main body content.".

Definition systemPrompt_line5 : list N :=
  lit "- Output Format: The output MUST be only the raw Markdown "
  ++ lit "text. Do NOT include any introductory phrases, "
  ++ lit "explanations, summaries, concluding remarks, or surround "
  ++ lit "the output with Markdown code fences. The response should "
  ++ lit "begin directly with the first line of the converted "
  ++ lit "Markdown content and end with the last line, with no extra "
  ++ lit "formatting or text.".

(** [DEFAULT_SETTINGS] (main.ts:14-24). *)
Definition DEFAULT_SETTINGS : PDF2MDSettings :=
  {| apiKey := lit "your_api_key";
     modelName := lit "gemini-2.5";
     systemPrompt :=
       systemPrompt_line1 ++ [LF] ++ systemPrompt_line2 ++ [LF]
       ++ systemPrompt_line3 ++ [LF] ++ systemPrompt_line4 ++ [LF]
       ++ systemPrompt_line5;
     userPrompt :=
       lit "Please convert the uploaded PDF document into raw Markdown "
       ++ lit "format, strictly following the conversion rules defined in "
       ++ lit "the system prompt.";
     temperature := MkNumber true (lit "0.5") |}.

(** A JavaScript object, by its own enumerable properties. *)
Definition to_object (s : PDF2MDSettings) : gmap (list N) json :=
  <[ lit "apiKey" := JStr (apiKey s) ]>
  (<[ lit "modelName" := JStr (modelName s) ]>
  (<[ lit "systemPrompt" := JStr (systemPrompt s) ]>
  (<[ lit "userPrompt" := JStr (userPrompt s) ]>
  (<[ lit "temperature" := JNum (temperature s) ]> ∅)))).

(** The properties that [Object.assign] copies from a source: none for
    [null], [undefined], a number or a boolean; the members of an object;
    the elements of an array and the code units of a string, by index.
    The copy is an assignment, and assigning [__proto__] to a plain object
    creates no property. *)
Definition assigned (source : value) : gmap (list N) json :=
  delete (lit "__proto__")
    match source with
    | Some (JObj ms) => list_to_map ms
    | Some (JArr items) =>
        list_to_map (imap (fun i v => (to_decimal (N.of_nat i), v)) items)
    | Some (JStr s) =>
        list_to_map (imap (fun i c => (to_decimal (N.of_nat i), JStr [c])) s)
    | _ => ∅
    end.

(** The part of the plugin that the settings store works on:
    [this.settings], and what [loadData] gives ([None] when nothing was
    saved yet). The values of settings are JSON values, which
    [saveData] followed by [loadData] gives back as they are. *)
Record plugin : Type := {
  settings_object : gmap (list N) json;
  saved : value
}.

(** [loadSettings] (main.ts:188-190):
    [Object.assign({}, DEFAULT_SETTINGS, await this.loadData())]. *)
Definition loadSettings (p : plugin) : plugin :=
  {| settings_object := assigned (saved p) ∪ to_object DEFAULT_SETTINGS;
     saved := saved p |}.





(** ** The file menu (main.ts:46-55) *)

Record MenuItem : Type := {
  title : list N;
  icon : list N;
  onClick : host -> PDF2MDSettings -> world -> world
}.

(** The handler of [file-menu]: the items it adds for a file with the
    given extension. *)
Definition file_menu (extension : list N) (file : TFile) : list MenuItem :=
  if str_eqb extension (lit "pdf")
  then [ {| title := lit "Convert to Markdown";
            icon := lit "file-pdf";
            onClick := fun h st => convertFile h st file |} ]
  else [].

(** ** The stages of a run *)

Definition with_temperature (t : number) (s : PDF2MDSettings)
  : PDF2MDSettings :=
  {| apiKey := apiKey s; modelName := modelName s;
     systemPrompt := systemPrompt s; userPrompt := userPrompt s;
     temperature := t |}.

(** The three requests, from what the run has at hand. *)
Definition start_of (st : PDF2MDSettings) (file : TFile) (data : list N)
  : request :=
  start_request (trim (apiKey st)) (name file) (N.of_nat (length data)).

Definition upload_of (uploadUrl data : list N) : request :=
  upload_request uploadUrl data (N.of_nat (length data)).

Definition generate_of (st : PDF2MDSettings) (encodedModel : list N)
           (fileUri : json) : request :=
  generate_request st encodedModel (trim (apiKey st)) fileUri.

(** [uploadUrl] of main.ts:100. *)
Definition upload_url (r : response) : option (list N) :=
  or_string (headers_get (resp_headers r) (lit "x-goog-upload-url"))
            (headers_get (resp_headers r) (lit "X-Goog-Upload-URL")).

(** [fileInfo.file.uri] of main.ts:128-129, without the world. *)
Definition file_uri (h : host) (r : response) : js_error + value :=
  match JSON_parse h (text r) with
  | None => inl SyntaxError_JSON
  | Some fileInfo =>
      match get (Some fileInfo) (lit "file") with
      | inl e => inl e
      | inr fileInfo_file => get fileInfo_file (lit "uri")
      end
  end.

(** The markdown of a parsed generation response before it is stripped
    (main.ts:165-170), without the world. *)
Definition extract_markdown (genData : json) : js_error + list N :=
  match get (Some genData) (lit "candidates") with
  | inl e => inl e
  | inr candidates =>
      if negb (truthy (opt_length candidates))
      then inl (Error (lit "No candidates returned"))
      else
        match index0 candidates with
        | inl e => inl e
        | inr candidate =>
            match get candidate (lit "content") with
            | inl e => inl e
            | inr content =>
                match get content (lit "parts") with
                | inl e => inl e
                | inr parts =>
                    match parts_map_text parts with
                    | inl e => inl e
                    | inr contentParts => join_empty contentParts
                    end
                end
            end
        end
  end.

(** The same from the body of the generation response (main.ts:164). *)
Definition markdown_of (h : host) (r : response) : js_error + list N :=
  match JSON_parse h (text r) with
  | None => inl SyntaxError_JSON
  | Some genData => extract_markdown genData
  end.

(** The lines the console gets at each stage. *)
Definition start_log (r : response) : event :=
  EvConsole [LStr (lit "startResponse status:"); LNum (status r);
             LStr (lit "body:"); LStr (text r)].

Definition url_log (r : response) : event :=
  EvConsole [LStr (lit "uploadUrl"); LNullable (upload_url r)].

Definition upload_log (r : response) : event :=
  EvConsole [LStr (lit "uploadResponse status:"); LNum (status r);
             LStr (lit "body:"); LStr (text r)].

Definition uri_log (v : value) : event :=
  EvConsole [LStr (lit "fileUri"); LValue v].

Definition generate_log (r : response) : event :=
  EvConsole [LStr (lit "generateResponse status:"); LNum (status r);
             LStr (lit "body:"); LStr (text r)].

(** The events of a run up to the moment the upload request is issued. *)
Definition started_events (st : PDF2MDSettings) (file : TFile)
           (data : list N) (r1 : response) : list event :=
  opening file
  ++ [EvFetch (start_of st file data); start_log r1;
      EvNotice NUploadSessionStarted; url_log r1; EvNotice NUploading].

(** The events of a run up to the moment the generation request is
    issued. *)
Definition uploaded_events (st : PDF2MDSettings) (file : TFile)
           (data : list N) (r1 : response) (url : list N) (r2 : response)
           (uri : json) : list event :=
  started_events st file data r1
  ++ [EvFetch (upload_of url data); upload_log r2; EvNotice NFileUploaded;
      uri_log (Some uri); EvNotice NWaiting].

(** The events of a run up to the parse of the generation response. *)
Definition generated_events (st : PDF2MDSettings) (file : TFile)
           (data : list N) (r1 : response) (url : list N) (r2 : response)
           (uri : json) (enc : list N) (r3 : response) : list event :=
  uploaded_events st file data r1 url r2 uri
  ++ [EvFetch (generate_of st enc uri); generate_log r3;
      EvNotice NResponseReceived].

(** The source file is read, the key is not blank, and the session-start
    call is answered with [r1]. *)
Definition start_answered (h : host) (st : PDF2MDSettings) (file : TFile)
           (w : world) (data : list N) (r1 : response) : Prop :=
  vault w !! path file = Some (NFile data)
  /\ blank (apiKey st) = false
  /\ remote h (trace w ++ opening file) (start_of st file data) = Response r1.

Definition nonempty (s : list N) : bool :=
  match s with
  | [] => false
  | _ => true
  end.

(** The session has started: the answer is a success and carries the
    upload URL [url]. *)
Definition session_started (h : host) (st : PDF2MDSettings) (file : TFile)
           (w : world) (data : list N) (r1 : response) (url : list N)
  : Prop :=
  start_answered h st file w data r1
  /\ ok r1 = true
  /\ upload_url r1 = Some url
  /\ nonempty url = true.

(** The upload call is answered with [r2]. *)
Definition upload_answered (h : host) (st : PDF2MDSettings) (file : TFile)
           (w : world) (data : list N) (r1 : response) (url : list N)
           (r2 : response) : Prop :=
  session_started h st file w data r1 url
  /\ remote h (trace w ++ started_events st file data r1)
            (upload_of url data) = Response r2.

(** The file is uploaded: the answer is a success and carries the truthy
    file URI [uri]. *)
Definition file_uploaded (h : host) (st : PDF2MDSettings) (file : TFile)
           (w : world) (data : list N) (r1 : response) (url : list N)
           (r2 : response) (uri : json) : Prop :=
  upload_answered h st file w data r1 url r2
  /\ ok r2 = true
  /\ file_uri h r2 = inr (Some uri)
  /\ truthy (Some uri) = true.

(** The generation call is answered with [r3]. *)
Definition generate_answered (h : host) (st : PDF2MDSettings)
           (file : TFile) (w : world) (data : list N) (r1 : response)
           (url : list N) (r2 : response) (uri : json) (enc : list N)
           (r3 : response) : Prop :=
  file_uploaded h st file w data r1 url r2 uri
  /\ encodeURIComponent h (modelName st) = Some enc
  /\ remote h (trace w ++ uploaded_events st file data r1 url r2 uri)
            (generate_of st enc uri) = Response r3.

(** [frugal n m]: the computation [m] issues at most [n] requests. *)
Definition frugal {B : Type} (n : nat) (m : M B) : Prop :=
  forall w, exists new,
    trace (snd (m w)) = trace w ++ new /\ (length (fetches new) <= n)%nat.

(** The parsed candidate whose parts are objects with the given texts, a
    part without text for [None]. *)
Definition part_of (t : option (list N)) : json :=
  match t with
  | Some s => JObj [ (lit "text", JStr s) ]
  | None => JObj []
  end.

Definition candidate_of (texts : list (option (list N))) : json :=
  JObj [ (lit "content", JObj [ (lit "parts", JArr (map part_of texts)) ]) ].

(** * Properties *)

(** Case analysis on the code units a matcher looks at. *)
Ltac eval_lits :=
  repeat match goal with
         | |- context [lit ?s] =>
             let v := eval vm_compute in (lit s) in change (lit s) with v
         end.

Ltac crunch :=
  eval_lits;
  repeat (cbn -[N.eqb] in *; unfold char_eq, canonicalize in *;
          cbn -[N.eqb] in *;
          match goal with
          | |- context [N.eqb ?a ?b] =>
              destruct (N.eqb_spec a b); subst; try discriminate;
              try congruence
          | |- context [match ?s with [] => _ | _ :: _ => _ end] =>
              is_var s; destruct s
          | |- context [str_eqb ?s _] => is_var s; destruct s
          end).

(** ** Strings *)

Section Strings.

Implicit Types (p s r : list N).

Lemma str_eqb_eq a b : str_eqb a b = true <-> a = b.
Proof.
  revert b; induction a as [|x a IH]; intros [|y b]; simpl; try easy.
  rewrite andb_true_iff, N.eqb_eq, IH. split.
  - intros [-> ->]; reflexivity.
  - intros [= -> ->]; auto.
Qed.

Lemma str_eqb_refl a : str_eqb a a = true.
Proof. apply str_eqb_eq; reflexivity. Qed.

Lemma drop_prefix_Some p s r : drop_prefix p s = Some r <-> s = p ++ r.
Proof.
  revert s; induction p as [|a p IH]; intros s; simpl.
  - split; [intros [= ->] | intros ->]; reflexivity.
  - destruct s as [|b s]; [easy|].
    destruct (N.eqb_spec a b) as [->|Hne].
    + rewrite IH. split; [intros ->; reflexivity | intros [= ->]; reflexivity].
    + split; [easy | intros [= -> _]; contradiction].
Qed.

Lemma drop_prefix_app p r : drop_prefix p (p ++ r) = Some r.
Proof. apply drop_prefix_Some; reflexivity. Qed.

Lemma drop_prefix_None p s : drop_prefix p s = None <-> ~ p `prefix_of` s.
Proof.
  split.
  - intros H [r ->]. rewrite drop_prefix_app in H. discriminate.
  - intros H. destruct (drop_prefix p s) as [r|] eqn:E; [|reflexivity].
    apply drop_prefix_Some in E. exfalso; apply H. exists r; exact E.
Qed.

Lemma starts_with_prefix p s : starts_with p s = true <-> p `prefix_of` s.
Proof.
  revert s; induction p as [|a p IH]; intros s; simpl.
  - split; [intros _; apply prefix_nil | reflexivity].
  - destruct s as [|b s].
    + split; [easy | intros H; apply prefix_nil_inv in H; discriminate].
    + rewrite andb_true_iff, N.eqb_eq, IH. split.
      * intros [-> H]. apply prefix_cons, H.
      * intros H. split; [apply (prefix_cons_inv_1 _ _ _ _ H)
                         | apply (prefix_cons_inv_2 _ _ _ _ H)].
Qed.

Lemma rev_is_reverse s : rev s = reverse s.
Proof. unfold reverse. rewrite <- rev_alt. reflexivity. Qed.

Lemma ends_with_suffix p s : ends_with p s = true <-> p `suffix_of` s.
Proof.
  unfold ends_with. rewrite starts_with_prefix, !rev_is_reverse.
  symmetry. apply suffix_prefix_reverse.
Qed.

Lemma drop_optional_length p s :
  (length (drop_optional p s) <= length s)%nat.
Proof.
  unfold drop_optional. destruct (drop_prefix p s) as [r|] eqn:E; [|lia].
  apply drop_prefix_Some in E. subst s. rewrite length_app. lia.
Qed.

End Strings.

(** ** The matcher on the three expressions of the source *)

Section Matching.

Implicit Types (s bef aft : list N) (P : list N -> bool).

Lemma rmatch_chars l bef aft k :
  rmatch false (chars l) (bef, aft) k =
  match drop_prefix l aft with
  | Some aft' => k (rev l ++ bef, aft')
  | None => None
  end.
Proof.
  revert bef aft; induction l as [|c l IH]; intros bef aft; simpl.
  - reflexivity.
  - destruct aft as [|x aft]; [reflexivity|].
    unfold char_eq, canonicalize; simpl.
    destruct (N.eqb_spec c x) as [->|]; [|reflexivity].
    rewrite IH. destruct (drop_prefix l aft); [|reflexivity].
    rewrite <- app_assoc. reflexivity.
Qed.

Lemma exec_from_unfold ic r bef aft :
  exec_from ic r bef aft =
  match rmatch ic r (bef, aft) Some with
  | Some e => Some (bef, snd e)
  | None =>
      match aft with
      | [] => None
      | x :: aft' => exec_from ic r (x :: bef) aft'
      end
  end.
Proof. destruct aft; reflexivity. Qed.

(** *** The opening fence *)

Lemma rmatch_open_tail bef aft :
  exists b,
    rmatch false (Cat (Opt (Chr CR)) (Opt (Chr LF))) (bef, aft) Some =
    Some (b, drop_optional [LF] (drop_optional [CR] aft)).
Proof.
  unfold drop_optional. crunch; eexists; reflexivity.
Qed.

Lemma rmatch_Cat ic r1 r2 p k :
  rmatch ic (Cat r1 r2) p k = rmatch ic r1 p (fun q => rmatch ic r2 q k).
Proof. reflexivity. Qed.

Lemma rmatch_Opt ic r p k :
  rmatch ic (Opt r) p k =
  match rmatch ic r p k with
  | Some e => Some e
  | None => k p
  end.
Proof. reflexivity. Qed.

Lemma rmatch_Bol_start ic aft k : rmatch ic Bol ([], aft) k = k ([], aft).
Proof. reflexivity. Qed.

Lemma rmatch_open s :
  match rmatch false fence_open_re ([], s) Some with
  | Some e => snd e = open_direct s /\ drop_prefix fence s <> None
  | None => drop_prefix fence s = None
  end.
Proof.
  unfold fence_open_re, open_direct.
  rewrite rmatch_Cat, rmatch_Bol_start, rmatch_Cat, rmatch_chars.
  change (lit "```") with fence.
  destruct (drop_prefix fence s) as [s1|]; [|reflexivity].
  rewrite rmatch_Cat, rmatch_Opt, rmatch_chars. unfold drop_optional at 3.
  destruct (drop_prefix (lit "markdown") s1) as [s2|].
  - destruct (rmatch_open_tail (rev (lit "markdown") ++ rev fence ++ []) s2)
      as [b ->]. simpl. split; [reflexivity | discriminate].
  - destruct (rmatch_open_tail (rev fence ++ []) s1) as [b ->].
    simpl. split; [reflexivity | discriminate].
Qed.

Lemma exec_open_later x bef aft :
  exec_from false fence_open_re (x :: bef) aft = None.
Proof.
  revert x bef; induction aft as [|y aft IH]; intros x bef;
    rewrite exec_from_unfold; unfold fence_open_re; cbn [rmatch].
  - reflexivity.
  - apply IH.
Qed.

Lemma replace_open s : replace false fence_open_re [] s = open_direct s.
Proof.
  unfold replace. rewrite exec_from_unfold.
  pose proof (rmatch_open s) as H.
  destruct (rmatch false fence_open_re ([], s) Some) as [e|].
  - destruct H as [<- _]. reflexivity.
  - destruct s as [|x s].
    + reflexivity.
    + rewrite exec_open_later. unfold open_direct. rewrite H. reflexivity.
Qed.

(** *** Expressions anchored at the end *)

Lemma exec_from_cut ic r P :
  (forall bef aft,
      match rmatch ic r (bef, aft) Some with
      | Some e => P aft = true /\ snd e = []
      | None => P aft = false
      end) ->
  forall aft bef,
    exec_from ic r bef aft =
    option_map (fun p => (rev p ++ bef, [])) (cut P aft).
Proof.
  intros H aft; induction aft as [|x aft IH]; intros bef;
    rewrite exec_from_unfold; specialize (H bef); simpl cut.
  - specialize (H []). destruct (rmatch ic r (bef, []) Some) as [e|].
    + destruct H as [-> ->]. reflexivity.
    + rewrite H. reflexivity.
  - specialize (H (x :: aft)).
    destruct (rmatch ic r (bef, x :: aft) Some) as [e|].
    + destruct H as [-> ->]. reflexivity.
    + rewrite H, IH. destruct (cut P aft) as [p|]; simpl; [|reflexivity].
      rewrite <- app_assoc. reflexivity.
Qed.

Lemma replace_cut ic r P repl s :
  (forall bef aft,
      match rmatch ic r (bef, aft) Some with
      | Some e => P aft = true /\ snd e = []
      | None => P aft = false
      end) ->
  replace ic r repl s =
  match cut P s with
  | Some p => p ++ repl
  | None => s
  end.
Proof.
  intros H. unfold replace. rewrite (exec_from_cut ic r P H).
  destruct (cut P s) as [p|]; simpl; [|reflexivity].
  rewrite !app_nil_r, rev_involutive. reflexivity.
Qed.

Lemma cut_Some P s p :
  cut P s = Some p ->
  exists m, s = p ++ m /\ P m = true /\
            forall m', m' `suffix_of` s -> P m' = true ->
                       (length m' <= length m)%nat.
Proof.
  revert p; induction s as [|x s IH]; intros p; simpl.
  - destruct (P []) eqn:E; [|discriminate]. intros [= <-].
    exists []. repeat split; [exact E|].
    intros m' Hm _. apply suffix_nil_inv in Hm. subst; simpl; lia.
  - destruct (P (x :: s)) eqn:E.
    + intros [= <-]. exists (x :: s). repeat split; [exact E|].
      intros m' Hm _. apply suffix_length, Hm.
    + destruct (cut P s) as [p'|]; [|discriminate]. simpl. intros [= <-].
      destruct (IH p' eq_refl) as (m & -> & Pm & Hmax).
      exists m. repeat split; [exact Pm|].
      intros [|y m'] Hm Pm'; [simpl; lia|].
      apply suffix_cons_inv in Hm as [Hm|Hm].
      * rewrite Hm in Pm'. congruence.
      * apply Hmax; assumption.
Qed.

Lemma cut_None P s :
  cut P s = None -> forall m, m `suffix_of` s -> P m = false.
Proof.
  induction s as [|x s IH]; simpl.
  - destruct (P []) eqn:E; [discriminate|].
    intros _ m Hm. apply suffix_nil_inv in Hm. subst; exact E.
  - destruct (P (x :: s)) eqn:E; [discriminate|].
    destruct (cut P s) as [p'|]; [discriminate|]. intros _.
    intros [|y m] Hm.
    + apply IH; [reflexivity | apply suffix_nil].
    + apply suffix_cons_inv in Hm as [Hm|Hm].
      * rewrite Hm. exact E.
      * apply IH; [reflexivity | exact Hm].
Qed.

Lemma cut_app P p m :
  P m = true ->
  (forall q, q <> [] -> q `suffix_of` p -> P (q ++ m) = false) ->
  cut P (p ++ m) = Some p.
Proof.
  intros Pm; induction p as [|x p IH]; intros H.
  - simpl. destruct m; simpl; rewrite Pm; reflexivity.
  - assert (E : P ((x :: p) ++ m) = false)
      by (apply H; [discriminate | reflexivity]).
    simpl in *. rewrite E, IH; [reflexivity|].
    intros q Hq Hs. apply H; [exact Hq | apply suffix_cons_r, Hs].
Qed.

End Matching.

(** ** The closing fence and the extension *)

Section Anchored.

Implicit Types (s bef aft : list N).

Lemma rmatch_close bef aft :
  match rmatch false fence_close_re (bef, aft) Some with
  | Some e => close_here aft = true /\ snd e = []
  | None => close_here aft = false
  end.
Proof.
  unfold fence_close_re, close_here, close_markers.
  crunch; auto.
Qed.

Lemma replace_close s :
  replace false fence_close_re [] s =
  match cut close_here s with
  | Some p => p
  | None => s
  end.
Proof.
  rewrite (replace_cut false fence_close_re close_here [] s rmatch_close).
  destruct (cut close_here s); [apply app_nil_r | reflexivity].
Qed.

Lemma close_here_markers s : close_here s = true <-> s ∈ close_markers.
Proof.
  unfold close_here. rewrite existsb_exists. split.
  - intros (m & Hin & E). apply str_eqb_eq in E. subst.
    apply list_elem_of_In, Hin.
  - intros H. exists s. split; [apply list_elem_of_In, H | apply str_eqb_refl].
Qed.

Lemma char_eq_other c x :
  (c < 65 \/ 90 < c < 97 \/ 122 < c) -> c < 128 ->
  char_eq true c x = (x =? c).
Proof.
  intros Hc Hlt. unfold char_eq, canonicalize. cbn [andb].
  destruct (N.leb_spec 97 c), (N.leb_spec c 122),
    (N.leb_spec 97 x), (N.leb_spec x 122); cbn [andb];
    destruct (N.eqb_spec x c);
    match goal with
    | |- (?a =? ?b) = _ => destruct (N.eqb_spec a b)
    end; try reflexivity; lia.
Qed.

Lemma char_eq_lower c x :
  97 <= c <= 122 ->
  char_eq true c x = (x =? c) || (x =? c - 32).
Proof.
  intros Hc. unfold char_eq, canonicalize. cbn [andb].
  destruct (N.leb_spec 97 c), (N.leb_spec c 122),
    (N.leb_spec 97 x), (N.leb_spec x 122); cbn [andb];
    destruct (N.eqb_spec x c), (N.eqb_spec x (c - 32));
    match goal with
    | |- (?a =? ?b) = _ => destruct (N.eqb_spec a b)
    end; cbn [orb]; try reflexivity; lia.
Qed.

Lemma rmatch_pdf bef aft :
  match rmatch true pdf_ext_re (bef, aft) Some with
  | Some e => is_pdf_ext aft = true /\ snd e = []
  | None => is_pdf_ext aft = false
  end.
Proof.
  unfold pdf_ext_re, is_pdf_ext. cbn -[N.eqb char_eq].
  rewrite ?(char_eq_other 46), ?(char_eq_lower 112), ?(char_eq_lower 100),
    ?(char_eq_lower 102) by lia.
  destruct aft as [|a aft]; [reflexivity|].
  rewrite (char_eq_other 46) by lia.
  destruct (N.eqb_spec a 46); [|destruct aft as [|? [|? [|? [|? ?]]]]; reflexivity].
  destruct aft as [|b aft]; [reflexivity|].
  rewrite (char_eq_lower 112) by lia. change (112 - 32) with 80.
  destruct (N.eqb_spec b 112), (N.eqb_spec b 80); cbn [orb andb];
    try (destruct aft as [|? [|? [|? ?]]]; reflexivity);
    (destruct aft as [|c aft]; [reflexivity|];
     rewrite (char_eq_lower 100) by lia; change (100 - 32) with 68;
     destruct (N.eqb_spec c 100), (N.eqb_spec c 68); cbn [orb andb];
     try (destruct aft as [|? [|? ?]]; reflexivity);
     (destruct aft as [|d aft]; [reflexivity|];
      rewrite (char_eq_lower 102) by lia; change (102 - 32) with 70;
      destruct (N.eqb_spec d 102), (N.eqb_spec d 70); cbn [orb andb];
      destruct aft; auto)).
Qed.

Lemma replace_pdf s :
  outputPath s =
  match cut is_pdf_ext s with
  | Some p => p ++ lit ".md"
  | None => s
  end.
Proof. apply replace_cut, rmatch_pdf. Qed.

Lemma is_pdf_ext_length e : is_pdf_ext e = true -> length e = 4%nat.
Proof. destruct e as [|? [|? [|? [|? [|? ?]]]]]; simpl; congruence. Qed.

End Anchored.

(** ** What [strip] removes *)

Section Strip.

Implicit Types (x s m pre suf : list N).

Lemma strip_eq x :
  strip x =
  match cut close_here (open_direct x) with
  | Some p => p
  | None => open_direct x
  end.
Proof. unfold strip. rewrite replace_open, replace_close. reflexivity. Qed.

Lemma open_markers_fence m : m ∈ open_markers -> fence `prefix_of` m.
Proof.
  intros H. apply starts_with_prefix.
  apply list_elem_of_In in H. simpl in H.
  repeat destruct H as [<-|H]; try reflexivity. destruct H.
Qed.

Lemma close_markers_fence m : m ∈ close_markers -> fence `suffix_of` m.
Proof.
  intros H. apply ends_with_suffix.
  apply list_elem_of_In in H. simpl in H.
  repeat destruct H as [<-|H]; try reflexivity. destruct H.
Qed.

Lemma fence_open : fence ∈ open_markers.
Proof. apply list_elem_of_In. vm_compute. tauto. Qed.

Lemma fence_close : fence ∈ close_markers.
Proof. apply list_elem_of_In. vm_compute. tauto. Qed.

(** The leading marker that [open_direct] removes is one of
    [open_markers]. *)
Lemma open_direct_removes x :
  exists pre, x = pre ++ open_direct x /\ (pre = [] \/ pre ∈ open_markers).
Proof.
  unfold open_direct.
  destruct (drop_prefix fence x) as [s1|] eqn:E1;
    [apply drop_prefix_Some in E1; subst x | exists []; auto].
  unfold drop_optional.
  destruct (drop_prefix (lit "markdown") s1) as [s2|] eqn:E2;
    [apply drop_prefix_Some in E2; subst s1|];
    match goal with
    | |- context [drop_prefix [CR] ?s] =>
        destruct (drop_prefix [CR] s) as [s3|] eqn:E3;
        [apply drop_prefix_Some in E3; subst s|]
    end;
    match goal with
    | |- context [drop_prefix [LF] ?s] =>
        destruct (drop_prefix [LF] s) as [s4|] eqn:E4;
        [apply drop_prefix_Some in E4; subst s|]
    end;
    rewrite ?app_assoc; eexists; (split; [reflexivity|]);
    right; apply list_elem_of_In; vm_compute; tauto.
Qed.

(** No marker of [open_markers] that starts [x] is longer than what
    [open_direct] removes. *)
Lemma open_direct_longest x m :
  m ∈ open_markers -> starts_with m x = true ->
  (length (open_direct x) + length m <= length x)%nat.
Proof.
  intros H. apply list_elem_of_In in H. simpl in H.
  unfold open_direct, drop_optional, fence.
  repeat destruct H as [<-|H]; [..|destruct H];
    crunch; intros; try discriminate; simpl; lia.
Qed.

(** [strip] takes one marker of [open_markers] off the start of [x] and
    then one marker of [close_markers] off the end, the longest present
    in each case, and leaves what is between them as it is. *)
Lemma strip_decompose x :
  exists pre suf,
    x = pre ++ strip x ++ suf
    /\ (pre = [] \/ pre ∈ open_markers)
    /\ (forall m, m ∈ open_markers -> m `prefix_of` x ->
                  (length m <= length pre)%nat)
    /\ (suf = [] \/ suf ∈ close_markers)
    /\ (forall m, m ∈ close_markers -> m `suffix_of` strip x ++ suf ->
                  (length m <= length suf)%nat).
Proof.
  destruct (open_direct_removes x) as (pre & Hx & Hpre).
  assert (Hlong : forall m, m ∈ open_markers -> m `prefix_of` x ->
                            (length m <= length pre)%nat).
  { intros m Hm Hp. apply starts_with_prefix in Hp.
    pose proof (open_direct_longest x m Hm Hp) as Hl.
    apply (f_equal length) in Hx. rewrite length_app in Hx. lia. }
  rewrite strip_eq.
  destruct (cut close_here (open_direct x)) as [p|] eqn:Ec.
  - destruct (cut_Some _ _ _ Ec) as (suf & Ho & Hsuf & Hmax).
    exists pre, suf. rewrite <- Ho. repeat split; auto.
    + right. apply close_here_markers, Hsuf.
    + intros m Hm Hs. apply Hmax; [exact Hs | apply close_here_markers, Hm].
  - exists pre, []. rewrite app_nil_r. repeat split; auto.
    intros m Hm Hs. apply close_here_markers in Hm.
    rewrite (cut_None _ _ Ec m Hs) in Hm. discriminate.
Qed.

(** [strip] leaves [y] as it is exactly when [y] has no fence at its
    start and none at its end. *)
Lemma strip_fixed y :
  strip y = y <->
  starts_with fence y = false /\ ends_with fence y = false.
Proof.
  destruct (strip_decompose y) as (pre & suf & Hy & Hpre & Hlong & Hsuf & Hmax).
  split.
  - intros E. rewrite E in Hy, Hmax.
    assert (pre = [] /\ suf = []) as [-> ->].
    { apply (f_equal length) in Hy. rewrite !length_app in Hy.
      split; apply length_zero_iff_nil; lia. }
    split.
    + destruct (starts_with fence y) eqn:S; [|reflexivity].
      apply starts_with_prefix in S.
      pose proof (Hlong fence fence_open S) as Hl. simpl in Hl. lia.
    + destruct (ends_with fence y) eqn:S; [|reflexivity].
      apply ends_with_suffix in S. rewrite <- (app_nil_r y) in S.
      pose proof (Hmax fence fence_close S) as Hl. simpl in Hl. lia.
  - intros [S1 S2].
    assert (pre = []) as ->.
    { destruct Hpre as [->|Hm]; [reflexivity|].
      apply open_markers_fence in Hm. exfalso.
      assert (fence `prefix_of` y) as Hp
        by (rewrite Hy; apply prefix_app_r, Hm).
      apply starts_with_prefix in Hp. congruence. }
    assert (suf = []) as ->.
    { destruct Hsuf as [->|Hm]; [reflexivity|].
      apply close_markers_fence in Hm. exfalso.
      assert (fence `suffix_of` y) as Hp.
      { rewrite Hy. simpl. apply suffix_app_r, Hm. }
      apply ends_with_suffix in Hp. congruence. }
    simpl in Hy. rewrite app_nil_r in Hy. symmetry. exact Hy.
Qed.

Lemma close_here_length s : close_here s = true -> (length s <= 5)%nat.
Proof.
  intros H. apply close_here_markers, list_elem_of_In in H. simpl in H.
  repeat destruct H as [<-|H]; [..|destruct H]; simpl; lia.
Qed.

(** After the opening fence of [wrap] is gone, the closing one is cut
    where it starts unless the text ends with a carriage return. *)
Lemma cut_close_wrap text :
  ends_with [CR] text = false ->
  cut close_here (text ++ [LF] ++ fence) = Some text.
Proof.
  intros Hcr. apply cut_app; [reflexivity|].
  intros q Hq Hs.
  destruct (close_here (q ++ [LF] ++ fence)) eqn:E; [|reflexivity].
  exfalso. pose proof (close_here_length _ E) as Hl.
  rewrite length_app in Hl. simpl in Hl.
  destruct q as [|a [|b q]]; [congruence | | simpl in Hl; lia].
  assert (Hne : a <> CR)
    by (intros ->; apply ends_with_suffix in Hs; congruence).
  clear Hcr Hs. revert E. unfold close_here, close_markers.
  crunch; intros; discriminate.
Qed.

End Strip.

(** ** The post-processor: examples and claims *)

Example strip_title : strip (wrap (lit "# Title")) = lit "# Title".
Proof. vm_compute. reflexivity. Qed.

Example strip_crlf :
  strip (lit "```" ++ [CR; LF] ++ lit "x" ++ [CR; LF] ++ lit "```") = lit "x".
Proof. vm_compute. reflexivity. Qed.

Example strip_plain : strip (lit "plain text") = lit "plain text".
Proof. vm_compute. reflexivity. Qed.

Example strip_inner_fence : strip (lit "a```b```c") = lit "a```b```c".
Proof. vm_compute. reflexivity. Qed.

Example strip_other_tag :
  strip (lit "```python" ++ [LF] ++ lit "x") = lit "python" ++ [LF] ++ lit "x".
Proof. vm_compute. reflexivity. Qed.

(** C1, as the design document states it, fails: a text that begins with
    two fences loses one of them at each application of [strip]. *)
Lemma strip_twice_differs :
  strip (lit "``````abc") = lit "```abc"
  /\ strip (strip (lit "``````abc")) = lit "abc"
  /\ strip (strip (lit "``````abc")) <> strip (lit "``````abc").
Proof. vm_compute. repeat split; discriminate. Qed.

(** C1, amended: a second application of [strip] changes nothing exactly
    when the result of the first has no fence left at its start and none
    at its end. *)
Theorem strip_idempotent_iff (x : list N) :
  strip (strip x) = strip x <->
  starts_with fence (strip x) = false /\ ends_with fence (strip x) = false.
Proof. apply strip_fixed. Qed.

(** C2, as the design document states it, fails: the closing expression
    also takes a carriage return that ends the text. *)
Lemma strip_wrap_carriage_return :
  lit "a" ++ [CR] <> []
  /\ strip (wrap (lit "a" ++ [CR])) = lit "a"
  /\ strip (wrap (lit "a" ++ [CR])) <> lit "a" ++ [CR].
Proof. vm_compute. repeat split; discriminate. Qed.

(** C2, amended: for every text that does not end with a carriage
    return, stripping the wrapped text gives the text back. *)
Theorem strip_wrap (text : list N) :
  ends_with [CR] text = false -> strip (wrap text) = text.
Proof.
  intros H. rewrite strip_eq.
  assert (open_direct (wrap text) = text ++ [LF] ++ fence) as ->
    by (vm_compute; reflexivity).
  rewrite (cut_close_wrap text H). reflexivity.
Qed.

(** The title of the end-to-end scenario comes back from its fences. *)
Lemma strip_wrap_witness :
  ends_with [CR] (lit "# Title") = false
  /\ strip (wrap (lit "# Title")) = lit "# Title".
Proof.
  split; [reflexivity | apply (strip_wrap (lit "# Title")); reflexivity].
Defined.

(** C3, as the design document states it, fails: the leading fence is
    removed also when no newline follows it. *)
Lemma strip_without_newline :
  strip (lit "```abc") = lit "abc"
  /\ strip_spec (lit "```abc") = lit "```abc"
  /\ strip (lit "```abc") <> strip_spec (lit "```abc").
Proof. vm_compute. repeat split; discriminate. Qed.

(** C3, amended: [strip x] is [x] without one leading marker and one
    trailing marker. The leading marker is a fence, then the [markdown]
    tag or not, then a carriage return or not, then a line feed or not
    (no newline is required); it is the longest such marker that starts
    [x], and nothing is removed when [x] does not start with a fence. The
    trailing marker is a carriage return or not, a line feed or not, then
    a fence; it is the longest such marker that ends what is left, and
    nothing is removed when no fence ends it. What is between the two is
    unchanged. *)
Theorem strip_removes_markers (x : list N) :
  exists pre suf,
    x = pre ++ strip x ++ suf
    /\ (pre = [] \/ pre ∈ open_markers)
    /\ (forall m, m ∈ open_markers -> m `prefix_of` x ->
                  (length m <= length pre)%nat)
    /\ (suf = [] \/ suf ∈ close_markers)
    /\ (forall m, m ∈ close_markers -> m `suffix_of` strip x ++ suf ->
                  (length m <= length suf)%nat).
Proof. apply strip_decompose. Qed.

(** ** The path mapping *)

Section OutputPath.

Implicit Types (path e : list N).

Lemma lower_dot a : lower a = 46 <-> a = 46.
Proof.
  unfold lower. destruct (N.leb_spec 65 a), (N.leb_spec a 90); simpl; lia.
Qed.

Lemma lower_letter a c :
  97 <= c <= 122 -> lower a = c <-> a = c \/ a = c - 32.
Proof.
  intros Hc. unfold lower.
  destruct (N.leb_spec 65 a), (N.leb_spec a 90); simpl; lia.
Qed.

(** [is_pdf_ext] holds of [.pdf] in any letter case. *)
Lemma is_pdf_ext_lower e : is_pdf_ext e = true <-> map lower e = lit ".pdf".
Proof.
  change (lit ".pdf") with [46; 112; 100; 102].
  destruct e as [|a [|b [|c [|d [|? ?]]]]]; try (split; discriminate).
  cbn [is_pdf_ext map].
  rewrite !andb_true_iff, !orb_true_iff, !N.eqb_eq.
  rewrite <- (lower_dot a), <- (lower_letter b 112), <- (lower_letter c 100),
    <- (lower_letter d 102) by lia.
  split.
  - intros [[[-> ->] ->] ->]. reflexivity.
  - intros [= -> -> -> ->]. auto.
Qed.

Lemma outputPath_cases path :
  outputPath path =
  if ends_with (lit ".pdf") (map lower path)
  then take (length path - 4) path ++ lit ".md"
  else path.
Proof.
  rewrite replace_pdf.
  destruct (cut is_pdf_ext path) as [p|] eqn:E.
  - destruct (cut_Some _ _ _ E) as (m & -> & Hm & _).
    pose proof (is_pdf_ext_length _ Hm) as Hl.
    apply is_pdf_ext_lower in Hm.
    assert (ends_with (lit ".pdf") (map lower (p ++ m)) = true) as ->.
    { apply ends_with_suffix. rewrite map_app, Hm. apply suffix_app_r.
      reflexivity. }
    rewrite length_app, Hl, Nat.add_sub, take_app_length. reflexivity.
  - destruct (ends_with (lit ".pdf") (map lower path)) eqn:S; [|reflexivity].
    exfalso. apply ends_with_suffix in S. destruct S as [k Hk].
    assert (Hlen : length path = (length k + 4)%nat).
    { apply (f_equal length) in Hk.
      rewrite length_map, length_app in Hk. exact Hk. }
    assert (Hd : is_pdf_ext (drop (length k) path) = true).
    { apply is_pdf_ext_lower.
      rewrite <- (drop_app_length k (lit ".pdf")), <- Hk.
      symmetry. apply skipn_map. }
    rewrite (cut_None _ _ E _ (suffix_drop _ _)) in Hd. discriminate.
Qed.

End OutputPath.

Example outputPath_inner :
  outputPath (lit "a.pdf/b.pdfx") = lit "a.pdf/b.pdfx".
Proof. vm_compute. reflexivity. Qed.

Example outputPath_twice :
  outputPath (lit "x.pdf.PdF") = lit "x.pdf.md".
Proof. vm_compute. reflexivity. Qed.

(** C9: the output path is the source path with a trailing [.pdf], in any
    letter case, replaced by [.md]; a path that does not end so is mapped
    to itself, whatever [.pdf] it has elsewhere. *)
Theorem outputPath_trailing_pdf :
  (forall path : list N,
      outputPath path =
      if ends_with (lit ".pdf") (map lower path)
      then take (length path - 4) path ++ lit ".md"
      else path)
  /\ outputPath (lit "a/b/report.PDF") = lit "a/b/report.md"
  /\ outputPath (lit "a.pdf/notes.txt") = lit "a.pdf/notes.txt".
Proof.
  split; [exact outputPath_cases | split; vm_compute; reflexivity].
Qed.

(** ** Traces *)

Section Traces.

Implicit Types (t u : list event).

Lemma notices_app t u : notices (t ++ u) = notices t ++ notices u.
Proof.
  induction t as [|[] t IH]; simpl; rewrite ?IH; reflexivity.
Qed.

Lemma fetches_app t u : fetches (t ++ u) = fetches t ++ fetches u.
Proof.
  induction t as [|[] t IH]; simpl; rewrite ?IH; reflexivity.
Qed.

Lemma writes_app t u : writes (t ++ u) = writes t ++ writes u.
Proof.
  induction t as [|[] t IH]; simpl; rewrite ?IH; reflexivity.
Qed.

Lemma failures_app t u : failures (t ++ u) = failures t ++ failures u.
Proof. unfold failures. rewrite notices_app. apply filter_app. Qed.

Lemma converted_app t u : converted (t ++ u) = converted t || converted u.
Proof. unfold converted. rewrite notices_app. apply existsb_app. Qed.

Lemma drop_own t u : drop (length t) (t ++ u) = u.
Proof. apply drop_app_length. Qed.

End Traces.

(** ** Computations that only talk *)

Section Quiet.

Context {A B : Type}.

Lemma quiet_ret (a : A) : quiet (mret a).
Proof.
  intros w. exists []. simpl. rewrite app_nil_r. auto.
Qed.

Lemma quiet_throw (e : js_error) : quiet (@throw A e).
Proof.
  intros w. exists []. simpl. rewrite app_nil_r. auto.
Qed.

Lemma quiet_bind (m : M A) (f : A -> M B) :
  quiet m -> (forall a, quiet (f a)) -> quiet (m ≫= f).
Proof.
  intros Hm Hf w. pose proof (Hm w) as H.
  unfold quiet_at, mbind, M_bind in *.
  destruct (m w) as [[a| |e] w1]; simpl in *;
    destruct H as (n1 & Ht & Hv & Hc & Hw & Hfail).
  - destruct (Hf a w1) as (n2 & Ht2 & Hv2 & Hc2 & Hw2 & Hfail2).
    exists (n1 ++ n2).
    rewrite Ht2, Ht, Hv2, Hv, converted_app, writes_app, failures_app,
      Hc, Hc2, Hw, Hw2, Hfail, app_assoc.
    repeat split. exact Hfail2.
  - exists n1. auto.
  - exists n1. auto.
Qed.

End Quiet.

Section QuietSteps.

Context (h : host).


Lemma quiet_notice n :
  is_failure n = false -> is_converted n = false -> quiet (new_Notice n).
Proof.
  intros Hf Hc w. exists [EvNotice n]. simpl.
  unfold converted, failures; simpl. rewrite Hc.
  rewrite filter_cons_False by (rewrite Hf; discriminate). auto.
Qed.

Lemma quiet_console args : quiet (console args).
Proof. intros w. exists [EvConsole args]. simpl. auto. Qed.

(** A failure notice followed by [return]. *)
Lemma quiet_fail {A : Type} n :
  is_failure n = true -> quiet (new_Notice n;; @early_return A).
Proof.
  intros Hf w. exists [EvNotice n]. simpl.
  assert (is_converted n = false) as Hc by (destruct n; simpl in *; congruence).
  unfold converted, failures; simpl. rewrite Hc.
  rewrite filter_cons_True by exact Hf. auto.
Qed.

Lemma quiet_lift {A : Type} (r : js_error + A) : quiet (lift r).
Proof. destruct r; [apply quiet_throw | apply quiet_ret]. Qed.

Lemma quiet_parse t : quiet (parse h t).
Proof.
  unfold parse. destruct (JSON_parse h t); [apply quiet_ret | apply quiet_throw].
Qed.

Lemma quiet_encode s : quiet (encode h s).
Proof.
  unfold encode.
  destruct (encodeURIComponent h s); [apply quiet_ret | apply quiet_throw].
Qed.

Lemma quiet_fetch rq : quiet (fetch h rq).
Proof.
  intros w. exists [EvFetch rq]. unfold fetch.
  destruct (remote h (trace w) rq); simpl; auto.
Qed.

Lemma quiet_readBinary file : quiet (readBinary h file).
Proof.
  intros w. exists [EvReadBinary (path file)]. unfold readBinary.
  destruct (vault w !! path file) as [[]|]; simpl; auto.
Qed.

Local Ltac quiet_steps :=
  repeat first
    [ apply quiet_readBinary | apply quiet_fetch | apply quiet_console
    | apply quiet_parse | apply quiet_encode | apply quiet_lift
    | apply quiet_ret | apply quiet_throw
    | apply quiet_fail; reflexivity
    | apply quiet_notice; reflexivity
    | apply quiet_bind; [|intros ?]
    | match goal with
      | |- quiet (match ?x with _ => _ end) => destruct x
      | |- quiet (let _ := _ in _) => cbv zeta
      end ].

(** The first part of the [try] block only talks. *)
Lemma quiet_request_markdown settings file :
  quiet (request_markdown h settings file).
Proof.
  unfold request_markdown. quiet_steps.
Qed.

Lemma bind_trace {A B : Type} (m : M A) (f : A -> M B) pre :
  (forall w, trace (snd (m w)) = trace w ++ pre) ->
  (forall a, quiet (f a)) ->
  forall w, exists rest, trace (snd ((m ≫= f) w)) = trace w ++ pre ++ rest.
Proof.
  intros Hm Hf w. specialize (Hm w). unfold mbind, M_bind.
  destruct (m w) as [[a| |e] w1]; simpl in *.
  - destruct (Hf a w1) as (n & Ht & _). exists n.
    rewrite Ht, Hm, app_assoc. reflexivity.
  - exists []. rewrite app_nil_r. exact Hm.
  - exists []. rewrite app_nil_r. exact Hm.
Qed.

(** The first effect of the [try] block is the read of the source file,
    whatever the settings are. *)
Lemma request_markdown_reads settings file w :
  exists rest,
    trace (snd (request_markdown h settings file w)) =
    trace w ++ [EvReadBinary (path file)] ++ rest.
Proof.
  unfold request_markdown. apply bind_trace.
  - intros w0. unfold readBinary.
    destruct (vault w0 !! path file) as [[]|]; reflexivity.
  - intros u8array. quiet_steps.
Qed.

End QuietSteps.

(** ** The outcomes of [convertFile] *)

Section Outcomes.

Context (h : host) (settings : PDF2MDSettings) (file : TFile).

Implicit Types (w : world).

(** Every run is one of five: the network part returns early, or throws,
    or gives the markdown, which is then written over a file, written to
    a new file, or refused because a folder has the name. *)
Lemma convertFile_outcome w :
  let p := outputPath (path file) in
  let said := EvNotice (NConverted (name file) p) in
  let first := EvNotice (NConverting (name file)) in
  exists n1,
    converted n1 = false /\ writes n1 = [] /\
    snd (request_markdown h settings file (started file w)) =
      {| trace := trace (started file w) ++ n1; vault := vault w |} /\
    match fst (request_markdown h settings file (started file w)) with
    | Normal md =>
        failures n1 = [] /\
        match vault w !! p with
        | Some (NFile old) =>
            convertFile h settings file w =
            {| trace := trace w ++ first :: n1
                        ++ [EvGetAbstractFile p; EvModify p md; said];
               vault := <[p := NFile md]> (vault w) |}
        | None =>
            convertFile h settings file w =
            {| trace := trace w ++ first :: n1
                        ++ [EvGetAbstractFile p; EvCreate p md; said];
               vault := <[p := NFile md]> (vault w) |}
        | Some NFolder =>
            convertFile h settings file w =
            {| trace := trace w ++ first :: n1
                        ++ [EvGetAbstractFile p; EvCreate p md]
                        ++ caught (Rejected (create_failure h p));
               vault := vault w |}
        end
    | Return =>
        length (failures n1) = 1%nat /\
        convertFile h settings file w =
        {| trace := trace w ++ first :: n1; vault := vault w |}
    | Throw e =>
        failures n1 = [] /\
        convertFile h settings file w =
        {| trace := trace w ++ first :: n1 ++ caught e; vault := vault w |}
    end.
Proof.
  intros p said first.
  destruct (quiet_request_markdown h settings file (started file w))
    as (n1 & Ht & Hv & Hc & Hw & Hf).
  exists n1. split; [exact Hc|]. split; [exact Hw|].
  unfold convertFile, convertFile_body, mbind, M_bind, try_catch,
    new_Notice, console, emit. simpl. fold (started file w).
  unfold caught.
  destruct (request_markdown h settings file (started file w))
    as [[md| |e] [t2 v2]]; simpl in *; subst t2 v2.
  - split; [reflexivity|]. split; [exact Hf|].
    unfold write_markdown, mbind, M_bind, getAbstractFileByPath, modify,
      create, new_Notice, emit. simpl. fold p.
    destruct (vault w !! p) as [[old|]|] eqn:E; simpl; rewrite ?E; simpl;
      rewrite <- ?app_assoc; reflexivity.
  - split; [reflexivity|]. split; [exact Hf|].
    rewrite <- !app_assoc. reflexivity.
  - split; [reflexivity|]. split; [exact Hf|].
    rewrite <- !app_assoc. reflexivity.
Qed.

End Outcomes.

(** ** Runs that stop before the upload *)

Section EarlyStops.

Context (h : host) (settings : PDF2MDSettings) (file : TFile).

Implicit Types (w : world).

Local Ltac run :=
  unfold convertFile, convertFile_body, request_markdown, mbind, M_bind,
    try_catch, new_Notice, console, emit, readBinary, fetch, early_return,
    mret, M_ret, opening, caught;
  cbn -[lit to_decimal trim strip outputPath start_request].

Lemma run_events_eq w new v :
  convertFile h settings file w = {| trace := trace w ++ new; vault := v |} ->
  run_events h settings file w = new.
Proof. unfold run_events. intros ->. apply drop_app_length. Qed.

(** The read fails: the [catch] block reports it. *)
Lemma convertFile_unreadable w :
  readable w file = false ->
  convertFile h settings file w =
  {| trace := trace w ++ opening file
                ++ caught (Rejected (read_failure h (path file)));
     vault := vault w |}.
Proof.
  unfold readable. intros H. run.
  destruct (vault w !! path file) as [[]|]; try discriminate;
    cbn; rewrite <- !app_assoc; reflexivity.
Qed.

(** The read succeeds and the key is blank. *)
Lemma convertFile_blank w :
  readable w file = true -> trim (apiKey settings) = [] ->
  convertFile h settings file w =
  {| trace := trace w ++ opening file ++ [EvNotice NSetApiKey];
     vault := vault w |}.
Proof.
  unfold readable. intros H K. run. rewrite K.
  destruct (vault w !! path file) as [[]|]; try discriminate;
    cbn; rewrite <- !app_assoc; reflexivity.
Qed.

(** The read succeeds, the key is not blank, and the session-start call
    is answered with a status outside 200-299. *)
Lemma convertFile_start_failed w data resp :
  let rq := start_request (trim (apiKey settings)) (name file)
                          (N.of_nat (length data)) in
  vault w !! path file = Some (NFile data) ->
  trim (apiKey settings) <> [] ->
  remote h (trace w ++ opening file) rq = Response resp ->
  ok resp = false ->
  convertFile h settings file w =
  {| trace := trace w ++ opening file
                ++ [EvFetch rq;
                    EvConsole [LStr (lit "startResponse status:");
                               LNum (status resp);
                               LStr (lit "body:"); LStr (text resp)];
                    EvNotice (NUploadStartFailed (status resp) (text resp))];
     vault := vault w |}.
Proof.
  intros rq Hr K Hn Hok. run. rewrite Hr.
  destruct (trim (apiKey settings)) as [|c key] eqn:E; [congruence|].
  cbn -[lit to_decimal trim strip outputPath start_request].
  rewrite <- app_assoc. unfold opening in Hn. cbn [app] in *.
  fold rq. rewrite Hn.
  cbn -[lit to_decimal trim strip outputPath start_request].
  rewrite Hok.
  cbn -[lit to_decimal trim strip outputPath start_request].
  rewrite <- !app_assoc. reflexivity.
Qed.

Lemma blank_trim s : blank s = true -> trim s = [].
Proof.
  intros H. unfold trim, trim_end.
  assert (trim_start s = []) as ->; [|reflexivity].
  induction s as [|c s IH]; [reflexivity|].
  simpl in *. apply andb_true_iff in H as [-> H]. apply IH, H.
Qed.

End EarlyStops.

Section Blank.

Implicit Types (s : list N).

Lemma trim_start_nil s : trim_start s = [] -> blank s = true.
Proof.
  induction s as [|c s IH]; [reflexivity|]. simpl.
  destruct (is_white_space c); [exact IH | discriminate].
Qed.

Lemma trim_start_head s c r :
  trim_start s = c :: r -> is_white_space c = false.
Proof.
  induction s as [|x s IH]; [discriminate|]. simpl.
  destruct (is_white_space x) eqn:E; [exact IH|].
  intros [= <- _]. exact E.
Qed.

Lemma blank_rev s : blank (rev s) = blank s.
Proof.
  unfold blank. induction s as [|c s IH]; [reflexivity|].
  simpl. rewrite forallb_app, IH. simpl.
  rewrite andb_true_r. apply andb_comm.
Qed.

(** [trim] leaves nothing exactly of the blank strings. *)
Lemma trim_blank s : trim s = [] <-> blank s = true.
Proof.
  split; [|apply blank_trim].
  unfold trim, trim_end. intros H.
  apply (f_equal (@rev N)) in H. rewrite rev_involutive in H. simpl in H.
  apply trim_start_nil in H. rewrite blank_rev in H.
  destruct (trim_start s) as [|c r] eqn:E; [apply trim_start_nil, E|].
  apply trim_start_head in E. simpl in H. rewrite E in H. discriminate.
Qed.

End Blank.

Lemma converted_first f t :
  converted (EvNotice (NConverting f) :: t) = converted t.
Proof. reflexivity. Qed.

Lemma failures_first f t :
  failures (EvNotice (NConverting f) :: t) = failures t.
Proof. reflexivity. Qed.

(** ** The pipeline: examples and claims *)

Import Demo.

(** The scenario of the design document: ten bytes, an upload URL, a file
    URI and one fenced candidate. *)
Example end_to_end :
  let h := demo [start_ok; upload_ok; generate_ok] in
  let w := convertFile h settings report w0 in
  vault w !! lit "a/b/report.md" = Some (NFile (lit "# Title"))
  /\ map url (fetches (trace w)) =
     [ lit "https://generativelanguage.googleapis.com/upload/v1beta/files?key=KEY";
       lit "https://example/upload/123";
       lit "https://generativelanguage.googleapis.com/v1beta/models/gemini-2.5:generateContent?key=KEY" ]
  /\ notices (trace w) =
     [ NConverting (lit "report.PDF"); NUploadSessionStarted; NUploading;
       NFileUploaded; NWaiting; NResponseReceived;
       NConverted (lit "report.PDF") (lit "a/b/report.md") ].
Proof. vm_compute. auto. Qed.

(** C4 fails on the code: when the parsed body of the upload response has
    no [file] member, [fileInfo.file.uri] throws before the test of
    main.ts:131 is reached, and the notice is the one of the [catch]
    block, not [No file URI returned]; when the [file] member is there
    without a [uri], the notice is [No file URI returned]. In both runs
    the generation request is not issued. *)
Theorem missing_file_member_throws :
  let run (body : string) :=
    run_events (demo [start_ok; answer 200 (json_text body); generate_ok])
               settings report w0 in
  notices (run "{}"%string) =
    [ NConverting (lit "report.PDF"); NUploadSessionStarted; NUploading;
      NFileUploaded; NErrorConverting (TypeError_read (lit "uri") false) ]
  /\ length (fetches (run "{}"%string)) = 2%nat
  /\ notices (run "{'file':{}}"%string) =
    [ NConverting (lit "report.PDF"); NUploadSessionStarted; NUploading;
      NFileUploaded; NNoFileUri ]
  /\ length (fetches (run "{'file':{}}"%string)) = 2%nat.
Proof. vm_compute. auto. Qed.

(** C5: every run either shows the notice of success and no failure
    notice, or shows exactly one failure notice and leaves the vault as it
    was; so does the run in which the generation response has an empty
    list of candidates. *)
Theorem failure_is_atomic :
  (forall (h : host) (st : PDF2MDSettings) (file : TFile) (w : world),
      let w' := convertFile h st file w in
      let ev := run_events h st file w in
      trace w' = trace w ++ ev
      /\ ((converted ev = true /\ failures ev = [])
          \/ (converted ev = false /\ length (failures ev) = 1%nat
              /\ vault w' = vault w)))
  /\ (let h := demo [start_ok; upload_ok;
                     answer 200 (json_text "{'candidates':[]}")] in
      failures (run_events h settings report w0) =
        [NErrorConverting (Error (lit "No candidates returned"))]
      /\ writes (run_events h settings report w0) = []
      /\ vault (convertFile h settings report w0) = vault w0).
Proof.
  split; [|vm_compute; auto].
  intros h st file w w' ev. subst w' ev.
  destruct (convertFile_outcome h st file w) as (n1 & Hc & Hw & _ & H).
  destruct (fst (request_markdown h st file (started file w))) as [md| |e].
  - destruct H as [Hf H].
    destruct (vault w !! outputPath (path file)) as [[old|]|];
      rewrite (run_events_eq _ _ _ _ _ _ H), H; simpl trace; simpl vault;
      (split; [reflexivity|]);
      rewrite converted_first, failures_first, ?converted_app,
        ?failures_app, Hc, Hf.
    + left. split; reflexivity.
    + right. repeat split.
    + left. split; reflexivity.
  - destruct H as [Hf H].
    rewrite (run_events_eq _ _ _ _ _ _ H), H; simpl trace; simpl vault.
    split; [reflexivity|].
    rewrite converted_first, failures_first. right. auto.
  - destruct H as [Hf H].
    rewrite (run_events_eq _ _ _ _ _ _ H), H; simpl trace; simpl vault.
    split; [reflexivity|].
    rewrite converted_first, failures_first, converted_app, failures_app,
      Hc, Hf. right. repeat split.
Qed.

(** C6, as the design document states it, fails: with a blank key and a
    source file that cannot be read, the only failure notice is the one of
    the [catch] block; no notice asks for the key. *)
Lemma blank_key_unreadable_file :
  blank (apiKey blank_settings) = true
  /\ notices (run_events (demo []) blank_settings report w_empty) =
     [ NConverting (lit "report.PDF");
       NErrorConverting (Rejected (lit "ENOENT: no such file or directory")) ]
  /\ fetches (run_events (demo []) blank_settings report w_empty) = [].
Proof. vm_compute. auto. Qed.

(** C6, amended: with a key that is empty or white space only, a run
    issues no network request and leaves the vault as it was; when the
    read of the source file succeeds, the run is the opening notice, the
    read, and the notice that asks for the key. *)
Theorem blank_key_no_request (h : host) (st : PDF2MDSettings)
        (file : TFile) (w : world) :
  blank (apiKey st) = true ->
  let ev := run_events h st file w in
  fetches ev = []
  /\ vault (convertFile h st file w) = vault w
  /\ (readable w file = true -> ev = opening file ++ [EvNotice NSetApiKey]).
Proof.
  intros Hb ev. subst ev. apply blank_trim in Hb.
  destruct (readable w file) eqn:R.
  - pose proof (convertFile_blank h st file w R Hb) as H.
    rewrite (run_events_eq _ _ _ _ _ _ H), H. auto.
  - pose proof (convertFile_unreadable h st file w R) as H.
    rewrite (run_events_eq _ _ _ _ _ _ H), H.
    repeat split. discriminate.
Qed.

(** A key of three spaces, with the source file in the vault. *)
Lemma blank_key_no_request_witness :
  blank (apiKey blank_settings) = true
  /\ fetches (run_events (demo []) blank_settings report w0) = []
  /\ vault (convertFile (demo []) blank_settings report w0) = vault w0
  /\ (readable w0 report = true ->
      run_events (demo []) blank_settings report w0 =
      opening report ++ [EvNotice NSetApiKey]).
Proof.
  split; [reflexivity|].
  apply (blank_key_no_request (demo []) blank_settings report w0).
  reflexivity.
Defined.

(** C7: when the session-start call is answered with a status outside
    200-299, that call is the only network request of the run, nothing is
    written, and the failure notice is made of the status and of the body
    of the response. *)
Theorem start_failure_stops (h : host) (st : PDF2MDSettings) (file : TFile)
        (w : world) (data : list N) (resp : response) :
  let rq := start_request (trim (apiKey st)) (name file)
                          (N.of_nat (length data)) in
  let said := NUploadStartFailed (status resp) (text resp) in
  vault w !! path file = Some (NFile data) ->
  blank (apiKey st) = false ->
  remote h (trace w ++ opening file) rq = Response resp ->
  ok resp = false ->
  let ev := run_events h st file w in
  fetches ev = [rq]
  /\ writes ev = []
  /\ vault (convertFile h st file w) = vault w
  /\ failures ev = [said]
  /\ last (notices ev) = Some said
  /\ render h said =
     lit "Upload start failed: " ++ to_decimal (status resp)
       ++ lit " - " ++ text resp.
Proof.
  intros rq said Hr Hb Hn Hok ev. subst ev.
  assert (K : trim (apiKey st) <> []).
  { intros E. apply trim_blank in E. congruence. }
  pose proof (convertFile_start_failed h st file w data resp Hr K Hn Hok) as H.
  rewrite (run_events_eq _ _ _ _ _ _ H), H. repeat split.
Qed.

(** The session-start call answered with status 500 and body [boom]. *)
Lemma start_failure_stops_witness :
  let h := demo [answer 500 (lit "boom")] in
  let ev := run_events h settings report w0 in
  let rq := start_request (lit "KEY") (lit "report.PDF") 10 in
  let resp := {| status := 500; resp_headers := []; text := lit "boom" |} in
  vault w0 !! path report = Some (NFile pdf_bytes)
  /\ blank (apiKey settings) = false
  /\ remote h (trace w0 ++ opening report) rq = Response resp
  /\ ok resp = false
  /\ fetches ev = [rq]
  /\ writes ev = []
  /\ vault (convertFile h settings report w0) = vault w0
  /\ failures ev = [NUploadStartFailed 500 (lit "boom")]
  /\ last (notices ev) = Some (NUploadStartFailed 500 (lit "boom"))
  /\ render h (NUploadStartFailed 500 (lit "boom")) =
     lit "Upload start failed: 500 - boom".
Proof.
  intros h ev rq resp.
  split; [vm_compute; reflexivity|]. split; [reflexivity|].
  split; [reflexivity|]. split; [reflexivity|].
  apply (start_failure_stops h settings report w0 pdf_bytes resp);
    vm_compute; reflexivity.
Defined.

(** C8: a run shows the notice of success only when the processed
    markdown is afterwards the content of the file at the output path,
    put there by [modify] when a file was at the path and by [create] when
    nothing was; and a run whose network part gives the markdown does
    succeed unless a folder has the path, so a second run over the output
    of a first one overwrites it. *)
Theorem write_creates_or_overwrites (h : host) (st : PDF2MDSettings)
        (file : TFile) (w : world) :
  let p := outputPath (path file) in
  let w' := convertFile h st file w in
  let ev := run_events h st file w in
  let network := fst (request_markdown h st file (started file w)) in
  (converted ev = true ->
   exists md,
     network = Normal md
     /\ vault w' = <[p := NFile md]> (vault w)
     /\ ((exists old, vault w !! p = Some (NFile old)
                      /\ writes ev = [EvModify p md])
         \/ (vault w !! p = None /\ writes ev = [EvCreate p md])))
  /\ (forall md, network = Normal md ->
                 is_folder (vault w !! p) = false -> converted ev = true).
Proof.
  intros p w' ev network. subst w' ev network.
  destruct (convertFile_outcome h st file w) as (n1 & Hc & Hw & _ & H).
  fold p in H.
  destruct (fst (request_markdown h st file (started file w))) as [md| |e].
  - destruct H as [Hf H].
    destruct (vault w !! p) as [[old|]|] eqn:E;
      rewrite (run_events_eq _ _ _ _ _ _ H), H; simpl trace; simpl vault;
      rewrite converted_first, ?converted_app, Hc;
      change (writes (EvNotice (NConverting (name file)) :: ?t))
        with (writes t); rewrite ?writes_app, Hw; simpl.
    + split; [|reflexivity]. intros _. exists md. repeat split.
      left. exists old. auto.
    + split; [discriminate|]. intros md' _ [=].
    + split; [|reflexivity]. intros _. exists md. repeat split.
      right. auto.
  - destruct H as [Hf H].
    rewrite (run_events_eq _ _ _ _ _ _ H); rewrite converted_first, Hc.
    split; [discriminate|]. intros md [=].
  - destruct H as [Hf H].
    rewrite (run_events_eq _ _ _ _ _ _ H).
    rewrite converted_first, converted_app, Hc.
    split; [discriminate|]. intros md [=].
Qed.

(** A first run creates the output file; a second run, from the world the
    first one left, overwrites it. *)
Lemma write_creates_or_overwrites_witness :
  let h := demo [start_ok; upload_ok; generate_ok] in
  let p := lit "a/b/report.md" in
  let w1 := convertFile h settings report w0 in
  let w2 := convertFile h settings report w1 in
  (converted (run_events h settings report w0) = true
   /\ vault w0 !! p = None
   /\ writes (run_events h settings report w0) = [EvCreate p (lit "# Title")])
  /\ (converted (run_events h settings report w1) = true
      /\ vault w1 !! p = Some (NFile (lit "# Title"))
      /\ writes (run_events h settings report w1) =
         [EvModify p (lit "# Title")]
      /\ vault w2 = vault w1
      /\ exists md,
          fst (request_markdown h settings report (started report w1))
          = Normal md
          /\ vault w2 = <[outputPath (path report) := NFile md]> (vault w1)).
Proof.
  intros h p w1 w2.
  split; [vm_compute; auto|].
  split; [vm_compute; reflexivity|].
  split; [vm_compute; reflexivity|].
  split; [vm_compute; reflexivity|].
  split; [vm_compute; reflexivity|].
  destruct (proj1 (write_creates_or_overwrites h settings report w1))
    as (md & Hn & Hv & _); [vm_compute; reflexivity|].
  exists md. split; [exact Hn | exact Hv].
Defined.

(** C10: every run begins with the opening notice and the read of the
    source file, whatever the key is; when the read fails the run ends in
    the [catch] block: its only failure notice is the generic one, no
    notice asks for the key, no network request is issued and the vault is
    left as it was. *)
Theorem read_precedes_key_check (h : host) (st : PDF2MDSettings)
        (file : TFile) (w : world) :
  let ev := run_events h st file w in
  let e := Rejected (read_failure h (path file)) in
  (exists rest, ev = opening file ++ rest)
  /\ (readable w file = false ->
      ev = opening file ++ caught e
      /\ notices ev = [NConverting (name file); NErrorConverting e]
      /\ fetches ev = []
      /\ vault (convertFile h st file w) = vault w).
Proof.
  intros ev e. subst ev e. split.
  - destruct (convertFile_outcome h st file w) as (n1 & _ & _ & Hs & H).
    destruct (request_markdown_reads h st file (started file w))
      as (rest & Hr).
    rewrite Hs in Hr. simpl in Hr. apply app_inv_head in Hr. subst n1.
    destruct (fst (request_markdown h st file (started file w)))
      as [md| |e]; [destruct H as [_ H] | destruct H as [_ H]
                   | destruct H as [_ H]].
    + destruct (vault w !! outputPath (path file)) as [[old|]|];
        rewrite (run_events_eq _ _ _ _ _ _ H); eexists; reflexivity.
    + rewrite (run_events_eq _ _ _ _ _ _ H); eexists; reflexivity.
    + rewrite (run_events_eq _ _ _ _ _ _ H); eexists; reflexivity.
  - intros R. pose proof (convertFile_unreadable h st file w R) as H.
    rewrite (run_events_eq _ _ _ _ _ _ H), H. repeat split.
Qed.

(** A blank key and a vault without the source file. *)
Lemma read_precedes_key_check_witness :
  let h := demo [] in
  let e := Rejected (lit "ENOENT: no such file or directory") in
  blank (apiKey blank_settings) = true
  /\ readable w_empty report = false
  /\ run_events h blank_settings report w_empty = opening report ++ caught e
  /\ notices (run_events h blank_settings report w_empty) =
     [NConverting (lit "report.PDF"); NErrorConverting e]
  /\ fetches (run_events h blank_settings report w_empty) = []
  /\ vault (convertFile h blank_settings report w_empty) = vault w_empty.
Proof.
  intros h e. split; [reflexivity|]. split; [reflexivity|].
  apply (proj2 (read_precedes_key_check h blank_settings report w_empty)).
  reflexivity.
Defined.

(** ** The stages of a run, one after the other *)

Section Stages.

Context (h : host) (st : PDF2MDSettings) (file : TFile).

Implicit Types (w : world) (data url enc : list N).

Local Ltac norm := rewrite <- ?app_assoc; cbn [app].

Local Ltac exec :=
  unfold request_markdown, mbind, M_bind, new_Notice, console, emit,
    readBinary, fetch, early_return, mret, M_ret, parse, encode, lift,
    throw, started;
  cbn -[lit to_decimal trim strip outputPath start_request upload_request
        generate_request headers_get or_string ok truthy get opt_length
        index0 parts_map_text join_empty].

Local Ltac again :=
  cbn -[lit to_decimal trim strip outputPath start_request upload_request
        generate_request headers_get or_string ok truthy get opt_length
        index0 parts_map_text join_empty].

Local Ltac open_stages :=
  unfold generate_answered, file_uploaded, upload_answered,
    session_started, start_answered, generated_events, uploaded_events,
    started_events, opening, start_log, url_log, upload_log, uri_log,
    generate_log, upload_url, start_of, upload_of, generate_of in *;
  cbn [app] in *.

(** What [convertFile] makes of the three ways the first part of the
    [try] block can end. *)
Lemma convertFile_from w c n :
  let p := outputPath (path file) in
  request_markdown h st file (started file w) =
    (c, {| trace := trace w ++ opening file ++ n; vault := vault w |}) ->
  convertFile h st file w =
  match c with
  | Return => {| trace := trace w ++ opening file ++ n; vault := vault w |}
  | Throw e => {| trace := trace w ++ opening file ++ n ++ caught e;
                  vault := vault w |}
  | Normal md =>
      match vault w !! p with
      | Some NFolder =>
          {| trace := trace w ++ opening file ++ n
                      ++ [EvGetAbstractFile p; EvCreate p md]
                      ++ caught (Rejected (create_failure h p));
             vault := vault w |}
      | Some (NFile _) =>
          {| trace := trace w ++ opening file ++ n
                      ++ [EvGetAbstractFile p; EvModify p md;
                          EvNotice (NConverted (name file) p)];
             vault := <[p := NFile md]> (vault w) |}
      | None =>
          {| trace := trace w ++ opening file ++ n
                      ++ [EvGetAbstractFile p; EvCreate p md;
                          EvNotice (NConverted (name file) p)];
             vault := <[p := NFile md]> (vault w) |}
      end
  end.
Proof.
  intros p H.
  unfold convertFile, convertFile_body, mbind, M_bind, try_catch,
    new_Notice, console, emit, caught. simpl. fold (started file w).
  rewrite H. destruct c as [md| |e]; simpl.
  - unfold write_markdown, mbind, M_bind, getAbstractFileByPath, modify,
      create, new_Notice, emit. simpl. fold p.
    destruct (vault w !! p) as [[old|]|] eqn:E; simpl; rewrite ?E; simpl;
      rewrite <- ?app_assoc; reflexivity.
  - reflexivity.
  - rewrite <- !app_assoc. reflexivity.
Qed.

(** A run in which every call succeeds and the response has text. *)
Lemma request_markdown_generated w data (r1 : response) url
      (r2 : response) uri enc (r3 : response) :
  generate_answered h st file w data r1 url r2 uri enc r3 ->
  ok r3 = true ->
  request_markdown h st file (started file w) =
  (match markdown_of h r3 with
   | inl e => Throw e
   | inr md => Normal (strip md)
   end,
   {| trace := trace w ++ generated_events st file data r1 url r2 uri enc r3;
      vault := vault w |}).
Proof.
  intros H Hok3. open_stages.
  destruct H as [[[[(Hr & Hb & Hn1) (Hok1 & Hurl & Hne)] Hn2]
                    (Hok2 & Huri & Htr)] (Henc & Hn3)].
  remember (trim (apiKey st)) as key eqn:Ek.
  destruct key as [|kc key];
    [symmetry in Ek; apply trim_blank in Ek; congruence|].
  destruct url as [|uc url]; [discriminate|].
  unfold file_uri in Huri.
  destruct (JSON_parse h (text r2)) as [info|] eqn:Ep2; [|discriminate].
  destruct (get (Some info) (lit "file")) as [|ff] eqn:Ef; [discriminate|].
  rewrite Hurl in Hn2, Hn3 |- *.
  exec. rewrite Hr. again. rewrite <- Ek. again.
  norm. rewrite Hn1. again. rewrite Hok1. again. rewrite Hurl. again.
  norm. rewrite Hn2. again. rewrite Hok2. again. rewrite Ep2. again.
  rewrite Ef. again. rewrite Huri. again. rewrite Htr. again.
  rewrite Henc. again. norm. rewrite Hn3. again. rewrite Hok3. again.
  unfold markdown_of, extract_markdown.
  destruct (JSON_parse h (text r3)) as [genData|]; again;
    [|norm; reflexivity].
  destruct (get (Some genData) (lit "candidates")) as [|cs]; again;
    [norm; reflexivity|].
  destruct (truthy (opt_length cs)); again; [|norm; reflexivity].
  destruct (index0 cs) as [|c0]; again; [norm; reflexivity|].
  destruct (get c0 (lit "content")) as [|ct]; again; [norm; reflexivity|].
  destruct (get ct (lit "parts")) as [|ps]; again; [norm; reflexivity|].
  destruct (parts_map_text ps) as [|ts]; again; [norm; reflexivity|].
  destruct (join_empty ts) as [|md]; again; norm; reflexivity.
Qed.

Local Ltac go :=
  repeat (again; norm;
          match goal with
          | H : _ = _ |- _ => rewrite H
          end);
  again; norm.

Local Ltac key_not_blank Hb :=
  let Ek := fresh "Ek" in
  let key := fresh "key" in
  remember (trim (apiKey st)) as key eqn:Ek;
  symmetry in Ek;
  destruct key as [|? key];
  [apply trim_blank in Ek; congruence|];
  clear Hb.

(** The session-start call is rejected. *)
Lemma request_markdown_start_rejected w data m :
  vault w !! path file = Some (NFile data) ->
  blank (apiKey st) = false ->
  remote h (trace w ++ opening file) (start_of st file data) = NetError m ->
  request_markdown h st file (started file w) =
  (Throw (Rejected m),
   {| trace := trace w ++ opening file ++ [EvFetch (start_of st file data)];
      vault := vault w |}).
Proof.
  intros Hr Hb Hn. open_stages. key_not_blank Hb.
  exec. go. reflexivity.
Qed.

(** The session starts without a usable upload URL. *)
Lemma request_markdown_no_url w data (r1 : response) :
  start_answered h st file w data r1 ->
  ok r1 = true ->
  from_option nonempty false (upload_url r1) = false ->
  request_markdown h st file (started file w) =
  (Return,
   {| trace := trace w ++ opening file
                 ++ [EvFetch (start_of st file data); start_log r1;
                     EvNotice NUploadSessionStarted; url_log r1;
                     EvNotice NNoUploadUrl];
      vault := vault w |}).
Proof.
  intros (Hr & Hb & Hn1) Hok1 Hurl. open_stages. key_not_blank Hb.
  exec. go.
  destruct (or_string _ _) as [[|c u]|]; try discriminate; again; norm;
    reflexivity.
Qed.

(** The upload call is rejected, or answered with a failure. *)
Lemma request_markdown_upload_rejected w data (r1 : response) url m :
  session_started h st file w data r1 url ->
  remote h (trace w ++ started_events st file data r1) (upload_of url data)
    = NetError m ->
  request_markdown h st file (started file w) =
  (Throw (Rejected m),
   {| trace := trace w ++ started_events st file data r1
                 ++ [EvFetch (upload_of url data)];
      vault := vault w |}).
Proof.
  intros [(Hr & Hb & Hn1) (Hok1 & Hurl & Hne)] Hn2. open_stages.
  key_not_blank Hb. destruct url as [|uc url]; [discriminate|].
  rewrite Hurl in Hn2 |- *. exec. go. reflexivity.
Qed.

Lemma request_markdown_upload_failed w data (r1 : response) url
      (r2 : response) :
  upload_answered h st file w data r1 url r2 ->
  ok r2 = false ->
  request_markdown h st file (started file w) =
  (Return,
   {| trace := trace w ++ started_events st file data r1
                 ++ [EvFetch (upload_of url data); upload_log r2;
                     EvNotice (NUploadContentFailed (status r2) (text r2))];
      vault := vault w |}).
Proof.
  intros [[(Hr & Hb & Hn1) (Hok1 & Hurl & Hne)] Hn2] Hok2. open_stages.
  key_not_blank Hb. destruct url as [|uc url]; [discriminate|].
  rewrite Hurl in Hn2 |- *. exec. go. reflexivity.
Qed.

(** The upload succeeds and its body gives no file URI. *)
Lemma request_markdown_no_uri w data (r1 : response) url (r2 : response) :
  upload_answered h st file w data r1 url r2 ->
  ok r2 = true ->
  request_markdown h st file (started file w) =
  match file_uri h r2 with
  | inl e =>
      (Throw e,
       {| trace := trace w ++ started_events st file data r1
                     ++ [EvFetch (upload_of url data); upload_log r2;
                         EvNotice NFileUploaded];
          vault := vault w |})
  | inr v =>
      if truthy v
      then request_markdown h st file (started file w)
      else
        (Return,
         {| trace := trace w ++ started_events st file data r1
                       ++ [EvFetch (upload_of url data); upload_log r2;
                           EvNotice NFileUploaded; uri_log v;
                           EvNotice NNoFileUri];
            vault := vault w |})
  end.
Proof.
  intros [[(Hr & Hb & Hn1) (Hok1 & Hurl & Hne)] Hn2] Hok2.
  unfold file_uri.
  destruct (JSON_parse h (text r2)) as [info|] eqn:Ep2;
    [destruct (get (Some info) (lit "file")) as [e|ff] eqn:Ef;
     [|destruct (get ff (lit "uri")) as [e|v] eqn:Eu;
       [|destruct (truthy v) eqn:Et; [reflexivity|]]]|];
    open_stages; key_not_blank Hb; (destruct url as [|uc url]; [discriminate|]);
    rewrite Hurl in Hn2 |- *; exec; go;
    try reflexivity.
  destruct v as [j|]; again; [rewrite Et|]; again; norm; reflexivity.
Qed.

(** The generation call cannot be made, is rejected, or is answered with
    a failure. *)
Lemma request_markdown_uri_error w data (r1 : response) url (r2 : response)
      uri :
  file_uploaded h st file w data r1 url r2 uri ->
  encodeURIComponent h (modelName st) = None ->
  request_markdown h st file (started file w) =
  (Throw URIError_malformed,
   {| trace := trace w ++ uploaded_events st file data r1 url r2 uri;
      vault := vault w |}).
Proof.
  intros [[[(Hr & Hb & Hn1) (Hok1 & Hurl & Hne)] Hn2] (Hok2 & Huri & Htr)]
    Henc.
  unfold file_uri in Huri.
  destruct (JSON_parse h (text r2)) as [info|] eqn:Ep2; [|discriminate].
  destruct (get (Some info) (lit "file")) as [|ff] eqn:Ef; [discriminate|].
  open_stages. key_not_blank Hb. destruct url as [|uc url]; [discriminate|].
  rewrite Hurl in Hn2 |- *. exec. go. reflexivity.
Qed.

Lemma request_markdown_generate_rejected w data (r1 : response) url
      (r2 : response) uri enc m :
  file_uploaded h st file w data r1 url r2 uri ->
  encodeURIComponent h (modelName st) = Some enc ->
  remote h (trace w ++ uploaded_events st file data r1 url r2 uri)
         (generate_of st enc uri) = NetError m ->
  request_markdown h st file (started file w) =
  (Throw (Rejected m),
   {| trace := trace w ++ uploaded_events st file data r1 url r2 uri
                 ++ [EvFetch (generate_of st enc uri)];
      vault := vault w |}).
Proof.
  intros [[[(Hr & Hb & Hn1) (Hok1 & Hurl & Hne)] Hn2] (Hok2 & Huri & Htr)]
    Henc Hn3.
  unfold file_uri in Huri.
  destruct (JSON_parse h (text r2)) as [info|] eqn:Ep2; [|discriminate].
  destruct (get (Some info) (lit "file")) as [|ff] eqn:Ef; [discriminate|].
  open_stages. key_not_blank Hb. destruct url as [|uc url]; [discriminate|].
  rewrite Hurl in Hn2, Hn3 |- *. exec. go. reflexivity.
Qed.

Lemma request_markdown_generate_failed w data (r1 : response) url
      (r2 : response) uri enc (r3 : response) :
  generate_answered h st file w data r1 url r2 uri enc r3 ->
  ok r3 = false ->
  request_markdown h st file (started file w) =
  (Return,
   {| trace := trace w ++ uploaded_events st file data r1 url r2 uri
                 ++ [EvFetch (generate_of st enc uri); generate_log r3;
                     EvNotice (NGenerateFailed (status r3) (text r3))];
      vault := vault w |}).
Proof.
  intros [[[[(Hr & Hb & Hn1) (Hok1 & Hurl & Hne)] Hn2]
             (Hok2 & Huri & Htr)] (Henc & Hn3)] Hok3.
  unfold file_uri in Huri.
  destruct (JSON_parse h (text r2)) as [info|] eqn:Ep2; [|discriminate].
  destruct (get (Some info) (lit "file")) as [|ff] eqn:Ef; [discriminate|].
  open_stages. key_not_blank Hb. destruct url as [|uc url]; [discriminate|].
  rewrite Hurl in Hn2, Hn3 |- *. exec. go. reflexivity.
Qed.

End Stages.

(** ** The outcomes of the later stages *)

Section LaterStages.

Context (h : host) (st : PDF2MDSettings) (file : TFile) (w : world).

Local Ltac conclude H :=
  let Hc := fresh "Hc" in
  pose proof (convertFile_from h st file w _ _ H) as Hc;
  cbv zeta in Hc; cbn match in Hc;
  unfold run_events; rewrite Hc; cbn [trace vault];
  rewrite drop_app_length.

Local Ltac events :=
  unfold generated_events, uploaded_events, started_events, caught;
  rewrite <- ?app_assoc; cbn [app].

(** The session-start call is rejected by the network: the run ends in
    the [catch] block after that one request. *)
Lemma run_start_rejected data m :
  vault w !! path file = Some (NFile data) ->
  blank (apiKey st) = false ->
  remote h (trace w ++ opening file) (start_of st file data) = NetError m ->
  run_events h st file w =
    opening file ++ [EvFetch (start_of st file data)] ++ caught (Rejected m)
  /\ vault (convertFile h st file w) = vault w.
Proof.
  intros Hr Hb Hn.
  pose proof (request_markdown_start_rejected h st file w data m Hr Hb Hn) as H.
  conclude H. split; reflexivity.
Qed.

Lemma run_no_url data (r1 : response) :
  start_answered h st file w data r1 ->
  ok r1 = true ->
  from_option nonempty false (upload_url r1) = false ->
  run_events h st file w =
    opening file
    ++ [EvFetch (start_of st file data); start_log r1;
        EvNotice NUploadSessionStarted; url_log r1; EvNotice NNoUploadUrl]
  /\ vault (convertFile h st file w) = vault w.
Proof.
  intros Ha Hok Hu.
  pose proof (request_markdown_no_url h st file w data r1 Ha Hok Hu) as H.
  conclude H. split; reflexivity.
Qed.

Lemma run_upload_failed data (r1 : response) url (r2 : response) :
  upload_answered h st file w data r1 url r2 ->
  ok r2 = false ->
  run_events h st file w =
    started_events st file data r1
    ++ [EvFetch (upload_of url data); upload_log r2;
        EvNotice (NUploadContentFailed (status r2) (text r2))]
  /\ vault (convertFile h st file w) = vault w.
Proof.
  intros Ha Hok.
  pose proof (request_markdown_upload_failed h st file w data r1 url r2
                Ha Hok) as H.
  unfold started_events in H. rewrite <- app_assoc in H.
  conclude H. split; [events|]; reflexivity.
Qed.

Lemma run_no_uri data (r1 : response) url (r2 : response) v :
  upload_answered h st file w data r1 url r2 ->
  ok r2 = true ->
  file_uri h r2 = inr v ->
  truthy v = false ->
  run_events h st file w =
    started_events st file data r1
    ++ [EvFetch (upload_of url data); upload_log r2; EvNotice NFileUploaded;
        uri_log v; EvNotice NNoFileUri]
  /\ vault (convertFile h st file w) = vault w.
Proof.
  intros Ha Hok Hu Ht.
  pose proof (request_markdown_no_uri h st file w data r1 url r2 Ha Hok) as H.
  rewrite Hu, Ht in H.
  unfold started_events in H. rewrite <- app_assoc in H.
  conclude H. split; [events|]; reflexivity.
Qed.

Lemma run_uri_throws data (r1 : response) url (r2 : response) e :
  upload_answered h st file w data r1 url r2 ->
  ok r2 = true ->
  file_uri h r2 = inl e ->
  run_events h st file w =
    started_events st file data r1
    ++ [EvFetch (upload_of url data); upload_log r2; EvNotice NFileUploaded]
    ++ caught e
  /\ vault (convertFile h st file w) = vault w.
Proof.
  intros Ha Hok Hu.
  pose proof (request_markdown_no_uri h st file w data r1 url r2 Ha Hok) as H.
  rewrite Hu in H.
  unfold started_events in H. rewrite <- app_assoc in H.
  conclude H. split; [events|]; reflexivity.
Qed.

Lemma run_generate_failed data (r1 : response) url (r2 : response) uri enc
      (r3 : response) :
  generate_answered h st file w data r1 url r2 uri enc r3 ->
  ok r3 = false ->
  run_events h st file w =
    uploaded_events st file data r1 url r2 uri
    ++ [EvFetch (generate_of st enc uri); generate_log r3;
        EvNotice (NGenerateFailed (status r3) (text r3))]
  /\ vault (convertFile h st file w) = vault w.
Proof.
  intros Ha Hok.
  pose proof (request_markdown_generate_failed h st file w data r1 url r2
                uri enc r3 Ha Hok) as H.
  unfold uploaded_events, started_events in H. rewrite <- !app_assoc in H.
  conclude H. split; [events|]; reflexivity.
Qed.

Lemma run_generated data (r1 : response) url (r2 : response) uri enc
      (r3 : response) :
  let p := outputPath (path file) in
  generate_answered h st file w data r1 url r2 uri enc r3 ->
  ok r3 = true ->
  match markdown_of h r3 with
  | inl e =>
      run_events h st file w =
        generated_events st file data r1 url r2 uri enc r3 ++ caught e
      /\ vault (convertFile h st file w) = vault w
  | inr md =>
      is_folder (vault w !! p) = false ->
      run_events h st file w =
        generated_events st file data r1 url r2 uri enc r3
        ++ [EvGetAbstractFile p;
            match vault w !! p with
            | Some _ => EvModify p (strip md)
            | None => EvCreate p (strip md)
            end;
            EvNotice (NConverted (name file) p)]
      /\ vault (convertFile h st file w) = <[p := NFile (strip md)]> (vault w)
  end.
Proof.
  intros p Ha Hok.
  pose proof (request_markdown_generated h st file w data r1 url r2 uri enc
                r3 Ha Hok) as H.
  unfold generated_events, uploaded_events, started_events in H.
  rewrite <- !app_assoc in H.
  destruct (markdown_of h r3) as [e|md].
  - conclude H. split; [events|]; reflexivity.
  - intros Hf. fold p. pose proof (convertFile_from h st file w _ _ H) as Hc.
    cbv zeta in Hc. cbn match in Hc. fold p in Hc.
    unfold run_events.
    destruct (vault w !! p) as [[old|]|]; try discriminate;
      rewrite Hc; cbn [trace vault]; rewrite drop_app_length;
      (split; [events|]; reflexivity).
Qed.

Lemma run_start_failed data (r1 : response) :
  start_answered h st file w data r1 ->
  ok r1 = false ->
  run_events h st file w =
    opening file
    ++ [EvFetch (start_of st file data); start_log r1;
        EvNotice (NUploadStartFailed (status r1) (text r1))]
  /\ vault (convertFile h st file w) = vault w.
Proof.
  intros (Hr & Hb & Hn) Hok.
  assert (K : trim (apiKey st) <> []).
  { intros E. apply trim_blank in E. congruence. }
  pose proof (convertFile_start_failed h st file w data r1 Hr K Hn Hok) as H.
  rewrite (run_events_eq _ _ _ _ _ _ H), H. split; reflexivity.
Qed.

Lemma run_upload_rejected data (r1 : response) url m :
  session_started h st file w data r1 url ->
  remote h (trace w ++ started_events st file data r1) (upload_of url data)
    = NetError m ->
  run_events h st file w =
    started_events st file data r1 ++ [EvFetch (upload_of url data)]
    ++ caught (Rejected m)
  /\ vault (convertFile h st file w) = vault w.
Proof.
  intros Ha Hn.
  pose proof (request_markdown_upload_rejected h st file w data r1 url m
                Ha Hn) as H.
  unfold started_events in H. rewrite <- app_assoc in H.
  conclude H. split; [events|]; reflexivity.
Qed.

Lemma run_uri_error data (r1 : response) url (r2 : response) uri :
  file_uploaded h st file w data r1 url r2 uri ->
  encodeURIComponent h (modelName st) = None ->
  run_events h st file w =
    uploaded_events st file data r1 url r2 uri ++ caught URIError_malformed
  /\ vault (convertFile h st file w) = vault w.
Proof.
  intros Ha He.
  pose proof (request_markdown_uri_error h st file w data r1 url r2 uri
                Ha He) as H.
  unfold uploaded_events, started_events in H. rewrite <- !app_assoc in H.
  conclude H. split; [events|]; reflexivity.
Qed.

Lemma run_generate_rejected data (r1 : response) url (r2 : response) uri
      enc m :
  file_uploaded h st file w data r1 url r2 uri ->
  encodeURIComponent h (modelName st) = Some enc ->
  remote h (trace w ++ uploaded_events st file data r1 url r2 uri)
         (generate_of st enc uri) = NetError m ->
  run_events h st file w =
    uploaded_events st file data r1 url r2 uri
    ++ [EvFetch (generate_of st enc uri)] ++ caught (Rejected m)
  /\ vault (convertFile h st file w) = vault w.
Proof.
  intros Ha He Hn.
  pose proof (request_markdown_generate_rejected h st file w data r1 url r2
                uri enc m Ha He Hn) as H.
  unfold uploaded_events, started_events in H. rewrite <- !app_assoc in H.
  conclude H. split; [events|]; reflexivity.
Qed.

(** The markdown is there and a folder has the output path. *)
Lemma run_generated_folder data (r1 : response) url (r2 : response) uri enc
      (r3 : response) md :
  let p := outputPath (path file) in
  generate_answered h st file w data r1 url r2 uri enc r3 ->
  ok r3 = true ->
  markdown_of h r3 = inr md ->
  is_folder (vault w !! p) = true ->
  run_events h st file w =
    generated_events st file data r1 url r2 uri enc r3
    ++ [EvGetAbstractFile p; EvCreate p (strip md)]
    ++ caught (Rejected (create_failure h p))
  /\ vault (convertFile h st file w) = vault w.
Proof.
  intros p Ha Hok Hm Hf.
  pose proof (request_markdown_generated h st file w data r1 url r2 uri enc
                r3 Ha Hok) as H.
  rewrite Hm in H.
  unfold generated_events, uploaded_events, started_events in H.
  rewrite <- !app_assoc in H.
  pose proof (convertFile_from h st file w _ _ H) as Hc.
  cbv zeta in Hc. cbn match in Hc. fold p in Hc. unfold run_events.
  destruct (vault w !! p) as [[old|]|]; try discriminate.
  rewrite Hc; cbn [trace vault]; rewrite drop_app_length.
  split; [events|]; reflexivity.
Qed.

End LaterStages.

(** ** Requests are not repeated *)

Section Frugal.

Context (h : host).

Lemma frugal_ret {A : Type} (a : A) : frugal 0 (mret a).
Proof. intros w. exists []. simpl. rewrite app_nil_r. auto. Qed.

Lemma frugal_throw {A : Type} (e : js_error) : frugal 0 (@throw A e).
Proof. intros w. exists []. simpl. rewrite app_nil_r. auto. Qed.

Lemma frugal_return {A : Type} : frugal 0 (@early_return A).
Proof. intros w. exists []. simpl. rewrite app_nil_r. auto. Qed.

Lemma frugal_bind {A B : Type} (m : M A) (f : A -> M B) a b :
  frugal a m -> (forall x, frugal b (f x)) -> frugal (a + b) (m ≫= f).
Proof.
  intros Hm Hf w. pose proof (Hm w) as H. unfold mbind, M_bind in *.
  destruct (m w) as [[x| |e] w1]; simpl in *; destruct H as (n1 & Ht & Hl).
  - destruct (Hf x w1) as (n2 & Ht2 & Hl2). exists (n1 ++ n2).
    rewrite Ht2, Ht, app_assoc, fetches_app, length_app. split; [done|lia].
  - exists n1. split; [done|lia].
  - exists n1. split; [done|lia].
Qed.

Lemma frugal_notice n : frugal 0 (new_Notice n).
Proof. intros w. exists [EvNotice n]. simpl. auto. Qed.

Lemma frugal_console args : frugal 0 (console args).
Proof. intros w. exists [EvConsole args]. simpl. auto. Qed.

Lemma frugal_lift {A : Type} (r : js_error + A) : frugal 0 (lift r).
Proof. destruct r; [apply frugal_throw | apply frugal_ret]. Qed.

Lemma frugal_parse t : frugal 0 (parse h t).
Proof.
  unfold parse.
  destruct (JSON_parse h t); [apply frugal_ret | apply frugal_throw].
Qed.

Lemma frugal_encode s : frugal 0 (encode h s).
Proof.
  unfold encode.
  destruct (encodeURIComponent h s); [apply frugal_ret | apply frugal_throw].
Qed.

Lemma frugal_fetch rq : frugal 1 (fetch h rq).
Proof.
  intros w. exists [EvFetch rq]. unfold fetch.
  destruct (remote h (trace w) rq); simpl; auto.
Qed.

Lemma frugal_readBinary file : frugal 0 (readBinary h file).
Proof.
  intros w. exists [EvReadBinary (path file)]. unfold readBinary.
  destruct (vault w !! path file) as [[]|]; simpl; auto.
Qed.

(** The first part of the [try] block issues at most three requests. *)
Lemma frugal_request_markdown settings file :
  exists n, frugal n (request_markdown h settings file) /\ (n <= 3)%nat.
Proof.
  eexists. split.
  - unfold request_markdown.
    repeat first
      [ apply frugal_readBinary | apply frugal_fetch | apply frugal_console
      | apply frugal_parse | apply frugal_encode | apply frugal_lift
      | apply frugal_ret | apply frugal_throw | apply frugal_return
      | apply frugal_notice
      | eapply frugal_bind; [|intros ?]
      | match goal with
        | |- frugal _ (match ?x with _ => _ end) => destruct x
        | |- frugal _ (let _ := _ in _) => cbv zeta
        end ].
  - simpl. lia.
Qed.

End Frugal.

(** ** What a run leaves alone *)

Section Frame.

Context (h : host) (st : PDF2MDSettings) (file : TFile) (w : world).

(** The vault after a run is the vault before it, or that vault with one
    file written at the output path. *)
Lemma vault_after :
  vault (convertFile h st file w) = vault w
  \/ exists md,
      vault (convertFile h st file w) =
      <[outputPath (path file) := NFile md]> (vault w).
Proof.
  destruct (convertFile_outcome h st file w) as (n1 & _ & _ & _ & H).
  destruct (fst (request_markdown h st file (started file w))) as [md| |e].
  - destruct H as [_ H].
    destruct (vault w !! outputPath (path file)) as [[old|]|];
      rewrite H; simpl; eauto.
  - destruct H as [_ ->]. auto.
  - destruct H as [_ ->]. auto.
Qed.

(** A run issues at most three requests and calls the vault to write at
    most once. *)
Lemma run_bounds :
  (length (fetches (run_events h st file w)) <= 3)%nat
  /\ (length (writes (run_events h st file w)) <= 1)%nat.
Proof.
  destruct (convertFile_outcome h st file w) as (n1 & _ & Hw & Hs & H).
  destruct (frugal_request_markdown h st file) as (k & Hk & Hle).
  destruct (Hk (started file w)) as (new & Ht & Hl).
  rewrite Hs in Ht. simpl in Ht. apply app_inv_head in Ht. subst new.
  assert (Hcons : forall t,
             fetches (EvNotice (NConverting (name file)) :: t) = fetches t
             /\ writes (EvNotice (NConverting (name file)) :: t) = writes t)
    by (intros t; split; reflexivity).
  destruct (fst (request_markdown h st file (started file w))) as [md| |e];
    destruct H as [_ H];
    [destruct (vault w !! outputPath (path file)) as [[old|]|]|..];
    rewrite (run_events_eq _ _ _ _ _ _ H);
    match goal with
    | |- context [fetches (_ :: ?t)] => destruct (Hcons t) as [-> ->]
    end;
    rewrite ?fetches_app, ?writes_app, ?length_app, Hw; simpl; lia.
Qed.

End Frame.

(** The source path of a file named [stem.pdf] is not its output path. *)
Lemma outputPath_of_pdf stem :
  outputPath (stem ++ lit ".pdf") = stem ++ lit ".md"
  /\ outputPath (stem ++ lit ".pdf") <> stem ++ lit ".pdf".
Proof.
  assert (E : outputPath (stem ++ lit ".pdf") = stem ++ lit ".md").
  { rewrite replace_pdf.
    rewrite (cut_app is_pdf_ext stem (lit ".pdf")); [reflexivity..|].
    intros q Hq _. destruct (is_pdf_ext (q ++ lit ".pdf")) eqn:E; [|done].
    apply is_pdf_ext_length in E. rewrite length_app in E. simpl in E.
    destruct q; [done | simpl in E; lia]. }
  split; [exact E|]. rewrite E. intros H.
  apply (f_equal length) in H. rewrite !length_app in H. simpl in H. lia.
Qed.

(** ** The candidates of a generation response *)

Section Candidates.

Implicit Types (texts : list (option (list N))).



Lemma extract_markdown_first genData c rest :
  get (Some genData) (lit "candidates") = inr (Some (JArr (c :: rest))) ->
  extract_markdown genData =
  match get (Some c) (lit "content") with
  | inl e => inl e
  | inr content =>
      match get content (lit "parts") with
      | inl e => inl e
      | inr parts =>
          match parts_map_text parts with
          | inl e => inl e
          | inr contentParts => join_empty contentParts
          end
      end
  end.
Proof. intros H. unfold extract_markdown. rewrite H. reflexivity. Qed.

End Candidates.

(** ** The settings store *)

Section SettingsStore.

Implicit Types (p : plugin) (m : gmap (list N) json).




Lemma loaded_has_defaults p k :
  to_object DEFAULT_SETTINGS !! k <> None ->
  settings_object (loadSettings p) !! k <> None.
Proof.
  intros Hd H. simpl in H. apply lookup_union_None in H as [_ H].
  exact (Hd H).
Qed.

End SettingsStore.

(** * Further properties of the code *)

(** ** The post-processor and the path mapping *)

(** X1: a text wrapped in fences with carriage return and line feed comes
    back from [strip] as it was, whatever it is, with the [markdown] tag
    or without it. *)
Theorem strip_crlf_round_trip (text : list N) :
  strip (lit "```markdown" ++ [CR; LF] ++ text ++ [CR; LF] ++ lit "```") = text
  /\ strip (lit "```" ++ [CR; LF] ++ text ++ [CR; LF] ++ lit "```") = text.
Proof.
  assert (Hcut : cut close_here (text ++ [CR; LF] ++ fence) = Some text).
  { apply cut_app; [reflexivity|]. intros q Hq _.
    destruct (close_here (q ++ [CR; LF] ++ fence)) eqn:E; [|reflexivity].
    apply close_here_length in E. rewrite length_app in E. simpl in E.
    destruct q; [done | simpl in E; lia]. }
  split; rewrite strip_eq.
  - assert (open_direct (lit "```markdown" ++ [CR; LF] ++ text ++ [CR; LF]
                           ++ lit "```") = text ++ [CR; LF] ++ fence) as ->
      by (vm_compute; reflexivity).
    rewrite Hcut. reflexivity.
  - assert (open_direct (lit "```" ++ [CR; LF] ++ text ++ [CR; LF]
                           ++ lit "```") = text ++ [CR; LF] ++ fence) as ->
      by (vm_compute; reflexivity).
    rewrite Hcut. reflexivity.
Qed.

(** X2: [strip] returns a text as it is exactly when the text has no
    fence at its start and none at its end. *)
Theorem strip_leaves_unfenced (y : list N) :
  strip y = y <->
  starts_with fence y = false /\ ends_with fence y = false.
Proof. apply strip_fixed. Qed.

(** X3: the output path never ends with [.pdf] in any letter case, and
    mapping it again changes nothing. *)
Theorem outputPath_idempotent (path : list N) :
  ends_with (lit ".pdf") (map lower (outputPath path)) = false
  /\ outputPath (outputPath path) = outputPath path.
Proof.
  assert (H : ends_with (lit ".pdf") (map lower (outputPath path)) = false).
  { rewrite (outputPath_cases path).
    destruct (ends_with (lit ".pdf") (map lower path)) eqn:E; [|exact E].
    unfold ends_with. rewrite map_app, rev_app_distr. reflexivity. }
  split; [exact H|].
  rewrite (outputPath_cases (outputPath path)), H. reflexivity.
Qed.

(** ** What every run keeps *)

(** X4: a run calls the vault to write at most once, and the vault after
    it is the vault before it or that vault with one file at the output
    path; every other path holds what it held. *)
Theorem run_writes_once_at_output (h : host) (st : PDF2MDSettings)
        (file : TFile) (w : world) :
  let p := outputPath (path file) in
  let w' := convertFile h st file w in
  (length (writes (run_events h st file w)) <= 1)%nat
  /\ (vault w' = vault w \/ exists md, vault w' = <[p := NFile md]> (vault w))
  /\ (forall q, q <> p -> vault w' !! q = vault w !! q).
Proof.
  intros p w'. subst p w'.
  split; [apply run_bounds|]. split; [apply vault_after|].
  intros q Hq. destruct (vault_after h st file w) as [->|[md ->]];
    [reflexivity | apply lookup_insert_ne; congruence].
Qed.

(** X5: the requests of a run are the session start, then the upload,
    then the generation, each at most once and none without the one
    before; there is none at all when the source file cannot be read or
    the key is blank, and the session start is always issued
    otherwise. *)
Theorem requests_in_order (h : host) (st : PDF2MDSettings) (file : TFile)
        (w : world) :
  let ev := run_events h st file w in
  (readable w file = false \/ blank (apiKey st) = true -> fetches ev = [])
  /\ (forall data,
         vault w !! path file = Some (NFile data) ->
         blank (apiKey st) = false ->
         exists url enc uri,
           fetches ev = [start_of st file data]
           \/ fetches ev = [start_of st file data; upload_of url data]
           \/ fetches ev = [start_of st file data; upload_of url data;
                            generate_of st enc uri]).
Proof.
  intros ev. subst ev. split.
  - intros Hor.
    destruct (readable w file) eqn:R.
    + destruct Hor as [|B]; [discriminate|]. apply blank_trim in B.
      pose proof (convertFile_blank h st file w R B) as H.
      rewrite (run_events_eq _ _ _ _ _ _ H). reflexivity.
    + pose proof (convertFile_unreadable h st file w R) as H.
      rewrite (run_events_eq _ _ _ _ _ _ H). reflexivity.
  - intros data Hr Hb.
    destruct (remote h (trace w ++ opening file) (start_of st file data))
      as [m|r1] eqn:Hn1.
    { rewrite (proj1 (run_start_rejected h st file w data m Hr Hb Hn1)).
      exists [], [], JNull. left. reflexivity. }
    assert (Ha : start_answered h st file w data r1)
      by (repeat split; assumption).
    destruct (ok r1) eqn:Hok1.
    2:{ rewrite (proj1 (run_start_failed h st file w data r1 Ha Hok1)).
        exists [], [], JNull. left. reflexivity. }
    destruct (from_option nonempty false (upload_url r1)) eqn:Hu.
    2:{ rewrite (proj1 (run_no_url h st file w data r1 Ha Hok1 Hu)).
        exists [], [], JNull. left. reflexivity. }
    destruct (upload_url r1) as [url|] eqn:Eu; [|discriminate].
    simpl in Hu.
    assert (Hs : session_started h st file w data r1 url)
      by (split; [exact Ha | repeat split; assumption]).
    destruct (remote h (trace w ++ started_events st file data r1)
                     (upload_of url data)) as [m|r2] eqn:Hn2.
    { rewrite (proj1 (run_upload_rejected h st file w data r1 url m Hs Hn2)).
      exists url, [], JNull. right. left.
      unfold started_events. rewrite !fetches_app. reflexivity. }
    assert (Hua : upload_answered h st file w data r1 url r2)
      by (split; assumption).
    destruct (ok r2) eqn:Hok2.
    2:{ rewrite (proj1 (run_upload_failed h st file w data r1 url r2
                          Hua Hok2)).
        exists url, [], JNull. right. left.
        unfold started_events. rewrite !fetches_app. reflexivity. }
    destruct (file_uri h r2) as [e|v] eqn:Hfu.
    { rewrite (proj1 (run_uri_throws h st file w data r1 url r2 e
                        Hua Hok2 Hfu)).
      exists url, [], JNull. right. left.
      unfold started_events. rewrite !fetches_app. reflexivity. }
    destruct (truthy v) eqn:Htr.
    2:{ rewrite (proj1 (run_no_uri h st file w data r1 url r2 v
                          Hua Hok2 Hfu Htr)).
        exists url, [], JNull. right. left.
        unfold started_events. rewrite !fetches_app. reflexivity. }
    destruct v as [uri|]; [|discriminate].
    assert (Hfup : file_uploaded h st file w data r1 url r2 uri)
      by (split; [exact Hua | repeat split; assumption]).
    destruct (encodeURIComponent h (modelName st)) as [enc|] eqn:He.
    2:{ rewrite (proj1 (run_uri_error h st file w data r1 url r2 uri
                          Hfup He)).
        exists url, [], uri. right. left.
        unfold uploaded_events, started_events. rewrite !fetches_app.
        reflexivity. }
    destruct (remote h (trace w ++ uploaded_events st file data r1 url r2 uri)
                     (generate_of st enc uri)) as [m|r3] eqn:Hn3.
    { rewrite (proj1 (run_generate_rejected h st file w data r1 url r2 uri
                        enc m Hfup He Hn3)).
      exists url, enc, uri. right. right.
      unfold uploaded_events, started_events. rewrite !fetches_app.
      reflexivity. }
    assert (Hga : generate_answered h st file w data r1 url r2 uri enc r3)
      by (split; [exact Hfup | split; assumption]).
    exists url, enc, uri. right. right.
    destruct (ok r3) eqn:Hok3.
    2:{ rewrite (proj1 (run_generate_failed h st file w data r1 url r2 uri
                          enc r3 Hga Hok3)).
        unfold uploaded_events, started_events. rewrite !fetches_app.
        reflexivity. }
    pose proof (run_generated h st file w data r1 url r2 uri enc r3
                  Hga Hok3) as Hg. cbv zeta in Hg.
    destruct (markdown_of h r3) as [e|md] eqn:Hm.
    { rewrite (proj1 Hg).
      unfold generated_events, uploaded_events, started_events.
      rewrite !fetches_app. reflexivity. }
    destruct (is_folder (vault w !! outputPath (path file))) eqn:Hf.
    + rewrite (proj1 (run_generated_folder h st file w data r1 url r2 uri
                        enc r3 md Hga Hok3 Hm Hf)).
      unfold generated_events, uploaded_events, started_events.
      rewrite !fetches_app. reflexivity.
    + rewrite (proj1 (Hg eq_refl)).
      unfold generated_events, uploaded_events, started_events.
      rewrite !fetches_app.
      destruct (vault w !! outputPath (path file)); reflexivity.
Qed.

(** X6: the temperature of the settings has no effect on a run. *)
Theorem temperature_is_ignored (h : host) (st : PDF2MDSettings)
        (t : number) (file : TFile) (w : world) :
  convertFile h (with_temperature t st) file w = convertFile h st file w.
Proof. reflexivity. Qed.

Lemma requests_in_order_witness :
  exists url enc uri,
    fetches (run_events (demo [start_ok; upload_ok; generate_ok]) settings
                        report w0)
    = [start_of settings report pdf_bytes]
    \/ fetches (run_events (demo [start_ok; upload_ok; generate_ok]) settings
                           report w0)
       = [start_of settings report pdf_bytes; upload_of url pdf_bytes]
    \/ fetches (run_events (demo [start_ok; upload_ok; generate_ok]) settings
                           report w0)
       = [start_of settings report pdf_bytes; upload_of url pdf_bytes;
          generate_of settings enc uri].
Proof.
  apply (proj2 (requests_in_order (demo [start_ok; upload_ok; generate_ok])
                  settings report w0) pdf_bytes);
    vm_compute; reflexivity.
Defined.

(** ** The stages of a run *)



(** X8: when the markdown is there and a folder has the output path, the
    run asks the vault to create the file, is refused, reports the refusal
    with the notice of the [catch] block and leaves the vault as it was:
    the markdown is lost. *)
Theorem folder_at_output_path_loses_markdown (h : host)
        (st : PDF2MDSettings) (file : TFile) (w : world) (data : list N)
        (r1 : response) (url : list N) (r2 : response) (uri : json)
        (enc : list N) (r3 : response) (md : list N) :
  let p := outputPath (path file) in
  generate_answered h st file w data r1 url r2 uri enc r3 ->
  ok r3 = true ->
  markdown_of h r3 = inr md ->
  is_folder (vault w !! p) = true ->
  run_events h st file w =
    generated_events st file data r1 url r2 uri enc r3
    ++ [EvGetAbstractFile p; EvCreate p (strip md)]
    ++ caught (Rejected (create_failure h p))
  /\ vault (convertFile h st file w) = vault w.
Proof. apply run_generated_folder. Qed.

Lemma folder_at_output_path_witness :
  let h := demo [start_ok; upload_ok; generate_ok] in
  is_folder (vault w_folder !! outputPath (path report)) = true
  /\ last (notices (run_events h settings report w_folder)) =
     Some (NErrorConverting (Rejected (lit "File already exists.")))
  /\ vault (convertFile h settings report w_folder) = vault w_folder.
Proof.
  intros h. split; [vm_compute; reflexivity|].
  destruct (folder_at_output_path_loses_markdown h settings report w_folder
              pdf_bytes start_response (lit "https://example/upload/123")
              upload_response (JStr (lit "files/abc")) (lit "gemini-2.5")
              generate_response (wrap (lit "# Title"))) as [He Hv];
    [repeat split; vm_compute; reflexivity | vm_compute; reflexivity..|].
  split; [rewrite He; vm_compute; reflexivity | exact Hv].
Defined.

(** X9: when the session starts and its response has no upload URL, or an
    empty one, the run stops after that one request with the notice
    [No upload URL returned], and writes nothing. *)
Theorem missing_upload_url_stops (h : host) (st : PDF2MDSettings)
        (file : TFile) (w : world) (data : list N) (r1 : response) :
  start_answered h st file w data r1 ->
  ok r1 = true ->
  from_option nonempty false (upload_url r1) = false ->
  run_events h st file w =
    opening file
    ++ [EvFetch (start_of st file data); start_log r1;
        EvNotice NUploadSessionStarted; url_log r1; EvNotice NNoUploadUrl]
  /\ vault (convertFile h st file w) = vault w.
Proof. apply run_no_url. Qed.

Lemma missing_upload_url_stops_witness :
  let h := demo [answer 200 []] in
  start_answered h settings report w0 pdf_bytes (received 200 [])
  /\ notices (run_events h settings report w0) =
     [NConverting (lit "report.PDF"); NUploadSessionStarted; NNoUploadUrl]
  /\ vault (convertFile h settings report w0) = vault w0.
Proof.
  intros h.
  assert (Ha : start_answered h settings report w0 pdf_bytes (received 200 []))
    by (repeat split; vm_compute; reflexivity).
  split; [exact Ha|].
  destruct (missing_upload_url_stops h settings report w0 pdf_bytes
              (received 200 []) Ha) as [He Hv];
    [reflexivity | reflexivity |].
  split; [rewrite He; reflexivity | exact Hv].
Defined.

(** X10: when the upload call is answered with a status outside 200-299,
    the run stops after two requests; its failure notice is made of that
    status and of the body of the response, and nothing is written. *)
Theorem upload_failure_stops (h : host) (st : PDF2MDSettings)
        (file : TFile) (w : world) (data : list N) (r1 : response)
        (url : list N) (r2 : response) :
  upload_answered h st file w data r1 url r2 ->
  ok r2 = false ->
  run_events h st file w =
    started_events st file data r1
    ++ [EvFetch (upload_of url data); upload_log r2;
        EvNotice (NUploadContentFailed (status r2) (text r2))]
  /\ vault (convertFile h st file w) = vault w.
Proof. apply run_upload_failed. Qed.

Lemma upload_failure_stops_witness :
  let h := demo [start_ok; answer 403 (lit "denied")] in
  upload_answered h settings report w0 pdf_bytes start_response
    (lit "https://example/upload/123") (received 403 (lit "denied"))
  /\ map (render h) (failures (run_events h settings report w0)) =
     [lit "Upload content failed: 403 - denied"]
  /\ vault (convertFile h settings report w0) = vault w0.
Proof.
  intros h.
  assert (Ha : upload_answered h settings report w0 pdf_bytes start_response
                 (lit "https://example/upload/123")
                 (received 403 (lit "denied")))
    by (repeat split; vm_compute; reflexivity).
  split; [exact Ha|].
  destruct (upload_failure_stops h settings report w0 pdf_bytes start_response
              (lit "https://example/upload/123")
              (received 403 (lit "denied")) Ha) as [He Hv]; [reflexivity|].
  split; [rewrite He; vm_compute; reflexivity | exact Hv].
Defined.

(** X11: when the upload succeeds and [fileInfo.file.uri] is missing or
    falsy (the empty string, [null], [false], zero), the run stops after
    two requests with the notice [No file URI returned]; the generation
    request is not issued and nothing is written. *)
Theorem falsy_file_uri_stops (h : host) (st : PDF2MDSettings)
        (file : TFile) (w : world) (data : list N) (r1 : response)
        (url : list N) (r2 : response) (v : value) :
  upload_answered h st file w data r1 url r2 ->
  ok r2 = true ->
  file_uri h r2 = inr v ->
  truthy v = false ->
  run_events h st file w =
    started_events st file data r1
    ++ [EvFetch (upload_of url data); upload_log r2; EvNotice NFileUploaded;
        uri_log v; EvNotice NNoFileUri]
  /\ vault (convertFile h st file w) = vault w.
Proof. apply run_no_uri. Qed.

Lemma falsy_file_uri_stops_witness :
  let h := demo [start_ok; answer 200 (json_text "{'file':{}}")] in
  let r2 := received 200 (json_text "{'file':{}}") in
  upload_answered h settings report w0 pdf_bytes start_response
    (lit "https://example/upload/123") r2
  /\ file_uri h r2 = inr None
  /\ failures (run_events h settings report w0) = [NNoFileUri]
  /\ length (fetches (run_events h settings report w0)) = 2%nat.
Proof.
  intros h r2.
  assert (Ha : upload_answered h settings report w0 pdf_bytes start_response
                 (lit "https://example/upload/123") r2)
    by (repeat split; vm_compute; reflexivity).
  split; [exact Ha|]. split; [vm_compute; reflexivity|].
  destruct (falsy_file_uri_stops h settings report w0 pdf_bytes start_response
              (lit "https://example/upload/123") r2 None Ha) as [He _];
    [vm_compute; reflexivity..|].
  rewrite He. split; vm_compute; reflexivity.
Defined.

(** X12: when the upload succeeds and its body cannot be used (it is not
    JSON, or it is [null], or it has no [file] member), the error is
    thrown before the test for the URI and the run ends in the [catch]
    block: one notice with the message of the error, no generation
    request, nothing written. *)
Theorem unusable_upload_body_is_caught (h : host) (st : PDF2MDSettings)
        (file : TFile) (w : world) (data : list N) (r1 : response)
        (url : list N) (r2 : response) (e : js_error) :
  upload_answered h st file w data r1 url r2 ->
  ok r2 = true ->
  file_uri h r2 = inl e ->
  run_events h st file w =
    started_events st file data r1
    ++ [EvFetch (upload_of url data); upload_log r2; EvNotice NFileUploaded]
    ++ caught e
  /\ vault (convertFile h st file w) = vault w.
Proof. apply run_uri_throws. Qed.

Lemma unusable_upload_body_witness :
  let h := demo [start_ok; answer 200 (lit "<html>")] in
  let r2 := received 200 (lit "<html>") in
  upload_answered h settings report w0 pdf_bytes start_response
    (lit "https://example/upload/123") r2
  /\ file_uri h r2 = inl SyntaxError_JSON
  /\ failures (run_events h settings report w0) =
     [NErrorConverting SyntaxError_JSON]
  /\ length (fetches (run_events h settings report w0)) = 2%nat.
Proof.
  intros h r2.
  assert (Ha : upload_answered h settings report w0 pdf_bytes start_response
                 (lit "https://example/upload/123") r2)
    by (repeat split; vm_compute; reflexivity).
  split; [exact Ha|]. split; [vm_compute; reflexivity|].
  destruct (unusable_upload_body_is_caught h settings report w0 pdf_bytes
              start_response (lit "https://example/upload/123") r2
              SyntaxError_JSON Ha) as [He _];
    [vm_compute; reflexivity..|].
  rewrite He. split; vm_compute; reflexivity.
Defined.

(** X13: when the generation call is answered with a status outside
    200-299, the run stops after the three requests; its failure notice
    is made of that status and of the body of the response, and nothing is
    written. *)
Theorem generate_failure_stops (h : host) (st : PDF2MDSettings)
        (file : TFile) (w : world) (data : list N) (r1 : response)
        (url : list N) (r2 : response) (uri : json) (enc : list N)
        (r3 : response) :
  generate_answered h st file w data r1 url r2 uri enc r3 ->
  ok r3 = false ->
  run_events h st file w =
    uploaded_events st file data r1 url r2 uri
    ++ [EvFetch (generate_of st enc uri); generate_log r3;
        EvNotice (NGenerateFailed (status r3) (text r3))]
  /\ vault (convertFile h st file w) = vault w.
Proof. apply run_generate_failed. Qed.

Lemma generate_failure_stops_witness :
  let h := demo [start_ok; upload_ok; answer 429 (lit "quota")] in
  let r3 := received 429 (lit "quota") in
  generate_answered h settings report w0 pdf_bytes start_response
    (lit "https://example/upload/123") upload_response
    (JStr (lit "files/abc")) (lit "gemini-2.5") r3
  /\ map (render h) (failures (run_events h settings report w0)) =
     [lit "Generate content failed: 429 - quota"]
  /\ writes (run_events h settings report w0) = [].
Proof.
  intros h r3.
  assert (Ha : generate_answered h settings report w0 pdf_bytes
                 start_response (lit "https://example/upload/123")
                 upload_response (JStr (lit "files/abc")) (lit "gemini-2.5")
                 r3)
    by (repeat split; vm_compute; reflexivity).
  split; [exact Ha|].
  destruct (generate_failure_stops h settings report w0 pdf_bytes
              start_response (lit "https://example/upload/123")
              upload_response (JStr (lit "files/abc")) (lit "gemini-2.5") r3
              Ha) as [He _]; [reflexivity|].
  rewrite He. split; vm_compute; reflexivity.
Defined.

(** X14: when the generation call succeeds and no markdown can be taken
    from its body (it is not JSON, it has no candidate, the first
    candidate has no content or no parts), the run ends in the [catch]
    block with the message of the error and writes nothing; for a body
    without candidates the message is [No candidates returned]. *)
Theorem unusable_generation_is_caught (h : host) (st : PDF2MDSettings)
        (file : TFile) (w : world) (data : list N) (r1 : response)
        (url : list N) (r2 : response) (uri : json) (enc : list N)
        (r3 : response) (e : js_error) :
  generate_answered h st file w data r1 url r2 uri enc r3 ->
  ok r3 = true ->
  markdown_of h r3 = inl e ->
  run_events h st file w =
    generated_events st file data r1 url r2 uri enc r3 ++ caught e
  /\ vault (convertFile h st file w) = vault w.
Proof.
  intros Ha Hok Hm.
  pose proof (run_generated h st file w data r1 url r2 uri enc r3 Ha Hok)
    as H. cbv zeta in H. rewrite Hm in H. exact H.
Qed.

Lemma unusable_generation_witness :
  let h := demo [start_ok; upload_ok;
                 answer 200 (json_text "{'candidates':[]}")] in
  let r3 := received 200 (json_text "{'candidates':[]}") in
  generate_answered h settings report w0 pdf_bytes start_response
    (lit "https://example/upload/123") upload_response
    (JStr (lit "files/abc")) (lit "gemini-2.5") r3
  /\ markdown_of h r3 = inl (Error (lit "No candidates returned"))
  /\ map (render h) (failures (run_events h settings report w0)) =
     [lit "Error converting file: No candidates returned"]
  /\ writes (run_events h settings report w0) = [].
Proof.
  intros h r3.
  assert (Ha : generate_answered h settings report w0 pdf_bytes
                 start_response (lit "https://example/upload/123")
                 upload_response (JStr (lit "files/abc")) (lit "gemini-2.5")
                 r3)
    by (repeat split; vm_compute; reflexivity).
  split; [exact Ha|]. split; [vm_compute; reflexivity|].
  destruct (unusable_generation_is_caught h settings report w0 pdf_bytes
              start_response (lit "https://example/upload/123")
              upload_response (JStr (lit "files/abc")) (lit "gemini-2.5") r3
              (Error (lit "No candidates returned")) Ha) as [He _];
    [vm_compute; reflexivity..|].
  rewrite He. split; vm_compute; reflexivity.
Defined.

(** X15: when the network rejects the session-start call, the run ends in
    the [catch] block after that one request; the notice carries the
    message of the rejection and nothing is written. *)
Theorem rejected_start_is_caught (h : host) (st : PDF2MDSettings)
        (file : TFile) (w : world) (data m : list N) :
  vault w !! path file = Some (NFile data) ->
  blank (apiKey st) = false ->
  remote h (trace w ++ opening file) (start_of st file data) = NetError m ->
  run_events h st file w =
    opening file ++ [EvFetch (start_of st file data)] ++ caught (Rejected m)
  /\ vault (convertFile h st file w) = vault w.
Proof. apply run_start_rejected. Qed.

Lemma rejected_start_witness :
  let h := demo [] in
  map (render h) (failures (run_events h settings report w0)) =
    [lit "Error converting file: Failed to fetch"]
  /\ length (fetches (run_events h settings report w0)) = 1%nat.
Proof.
  intros h.
  destruct (rejected_start_is_caught h settings report w0 pdf_bytes
              (lit "Failed to fetch")) as [He _];
    [vm_compute; reflexivity..|].
  rewrite He. split; vm_compute; reflexivity.
Defined.

(** ** The text of a generation response *)

(** X16: only the first candidate of a generation response is read: the
    candidates after it do not change the markdown, nor whether it can be
    taken. *)
Theorem only_first_candidate_counts (genData c : json) (rest : list json) :
  get (Some genData) (lit "candidates") = inr (Some (JArr (c :: rest))) ->
  extract_markdown genData =
  extract_markdown (JObj [ (lit "candidates", JArr [c]) ]).
Proof.
  intros H. rewrite (extract_markdown_first genData c rest H).
  rewrite (extract_markdown_first _ c []); reflexivity.
Qed.

Lemma only_first_candidate_witness :
  extract_markdown
    (JObj [ (lit "candidates",
             JArr [candidate_of [Some (lit "kept")];
                   candidate_of [Some (lit "dropped")]]) ])
  = extract_markdown
      (JObj [ (lit "candidates", JArr [candidate_of [Some (lit "kept")]]) ]).
Proof.
  apply (only_first_candidate_counts _ (candidate_of [Some (lit "kept")])
           [candidate_of [Some (lit "dropped")]]).
  reflexivity.
Defined.



(** ** The settings store and the menu *)

(** X18: when nothing was saved, or what was saved is [null], a boolean
    or a number, [loadSettings] gives exactly the default settings. *)
Theorem load_without_data_gives_defaults (p : plugin) :
  match saved p with
  | None | Some JNull | Some (JBool _) | Some (JNum _) =>
      settings_object (loadSettings p) = to_object DEFAULT_SETTINGS
  | _ => True
  end.
Proof.
  destruct p as [m [[ | b | n | s | l | ms]|]]; simpl; try exact I;
    unfold assigned; rewrite delete_empty; apply (left_id_L ∅ (∪)).
Qed.

(** X19: [loadSettings] keeps every saved member except [__proto__], and
    takes from the defaults exactly the members that were not saved; so
    the five settings are always there after it. *)
Theorem load_merges_over_defaults (p : plugin) (k : list N) :
  settings_object (loadSettings p) !! k =
    match assigned (saved p) !! k with
    | Some v => Some v
    | None => to_object DEFAULT_SETTINGS !! k
    end
  /\ assigned (saved p) !! lit "__proto__" = None
  /\ Forall (fun key => settings_object (loadSettings p) !! lit key <> None)
       ["apiKey"; "modelName"; "systemPrompt"; "userPrompt";
        "temperature"]%string.
Proof.
  split; [|split].
  - simpl. rewrite lookup_union.
    destruct (assigned (saved p) !! k);
      destruct (to_object DEFAULT_SETTINGS !! k); reflexivity.
  - apply lookup_delete_eq.
  - repeat constructor; apply loaded_has_defaults; vm_compute; discriminate.
Qed.



(** X22: the file menu offers the conversion for the extension [pdf] in
    lower case only, and a conversion started from the menu on a file
    whose path ends with a dot and that extension writes to another path
    than its source: the source file is as it was after the run. *)
Theorem menu_conversion_keeps_source (extension : list N) (file : TFile)
        (stem : list N) (h : host) (st : PDF2MDSettings) (w : world) :
  path file = stem ++ lit "." ++ extension ->
  (file_menu extension file = [] <-> extension <> lit "pdf")
  /\ Forall (fun item =>
               vault (onClick item h st w) !! path file
               = vault w !! path file)
            (file_menu extension file).
Proof.
  intros Hp. unfold file_menu.
  destruct (str_eqb extension (lit "pdf")) eqn:E.
  - apply str_eqb_eq in E. subst extension. split.
    + split; [discriminate | congruence].
    + repeat constructor. simpl.
      destruct (vault_after h st file w) as [->|[md ->]]; [reflexivity|].
      apply lookup_insert_ne. rewrite Hp.
      apply (proj2 (outputPath_of_pdf stem)).
  - split; [|constructor]. split; [|reflexivity].
    intros _ ->. rewrite str_eqb_refl in E. discriminate.
Qed.

Lemma menu_conversion_keeps_source_witness :
  let h := demo [start_ok; upload_ok; generate_ok] in
  let w := {| trace := [];
              vault := {[ lit "notes/paper.pdf" := NFile pdf_bytes ]} |} in
  path paper = lit "notes/paper" ++ lit "." ++ lit "pdf"
  /\ length (file_menu (lit "pdf") paper) = 1%nat
  /\ file_menu (lit "PDF") report = []
  /\ Forall (fun item =>
               vault (onClick item h settings w) !! path paper
               = vault w !! path paper)
            (file_menu (lit "pdf") paper).
Proof.
  intros h w. split; [reflexivity|]. split; [reflexivity|].
  split; [reflexivity|].
  apply (menu_conversion_keeps_source (lit "pdf") paper (lit "notes/paper")
           h settings w).
  reflexivity.
Defined.
